(** * DWAS: job orchestration and result aggregation

    A shallow embedding of the scanner adapters ([scanner/scanner.py]), the
    Celery task ([backend/tasks.py]), the job table ([backend/models.py]) and
    the upload and report code of [backend/main.py].

    Python values that travel as JSON are terms of [json]; code that can
    raise, reads the clock, launches processes or touches the job table runs
    in the monad [M] over an explicit [world].  Everything outside the
    repository (the file system, the external tools, [json.loads], the clock,
    [uuid.uuid4], the zip extractor) is an oracle of the record [env].
    Logging and printing are left out: they write to the logger's own buffer
    and file only. *)

From Stdlib Require Import List String Ascii ZArith QArith Qminmax Lia Bool.
From Stdlib Require Import DecimalString.
Import ListNotations.
Close Scope Q_scope.
Open Scope string_scope.
Open Scope list_scope.
Set Warnings "-register-all".

Notation "a ^^ b" := (String.append a b) (at level 60, right associativity).

(** ** Python values *)

(** A decoded JSON document.  A [dict] keeps insertion order and is read by
    its first binding for a key; a float is carried by its [repr].  A string
    is the sequence of its code points, one character each: the strings
    described are those whose code points lie below 256. *)
Inductive json : Type :=
| JNull
| JBool (b : bool)
| JInt (n : Z)
| JFloat (repr : string)
| JStr (s : string)
| JArr (items : list json)
| JObj (fields : list (string * json)).

(** A raised exception: its class name and [str(e)]. *)
Record exn : Type := Exn { exn_type : string; exn_msg : string }.

Inductive outcome (A : Type) : Type :=
| Ok (a : A)
| Raise (e : exn).
Arguments Ok {A} a.
Arguments Raise {A} e.

(** *** Dictionaries *)

Fixpoint assoc (k : string) (fields : list (string * json)) : option json :=
  match fields with
  | [] => None
  | (k', v) :: rest => if String.eqb k' k then Some v else assoc k rest
  end.

(** [d.get(k, default)]: only a dict has [get]. *)
Definition py_get (d : json) (k : string) (default : json) : outcome json :=
  match d with
  | JObj fields =>
      match assoc k fields with
      | Some v => Ok v
      | None => Ok default
      end
  | _ => Raise (Exn "AttributeError" "object has no attribute 'get'")
  end.

(** [len(x)] *)
Definition py_len (x : json) : outcome nat :=
  match x with
  | JArr items => Ok (List.length items)
  | JObj fields => Ok (List.length fields)
  | JStr s => Ok (String.length s)
  | _ => Raise (Exn "TypeError" "object has no len()")
  end.

Fixpoint chars (s : string) : list json :=
  match s with
  | EmptyString => []
  | String c rest => JStr (String c EmptyString) :: chars rest
  end.

(** [for r in x]: a list yields its items, a dict its keys, a string its
    characters. *)
Definition py_iter (x : json) : outcome (list json) :=
  match x with
  | JArr items => Ok items
  | JObj fields => Ok (map (fun kv => JStr (fst kv)) fields)
  | JStr s => Ok (chars s)
  | _ => Raise (Exn "TypeError" "object is not iterable")
  end.

(** *** Strings *)

Definition string_of_nat (n : nat) : string :=
  NilZero.string_of_uint (Nat.to_uint n).

Definition string_of_Z (n : Z) : string :=
  NilZero.string_of_int (Z.to_int n).

(** [s.endswith(suffix)] *)
Definition endswith (s suffix : string) : bool :=
  let n := String.length s in
  let m := String.length suffix in
  Nat.leb m n && String.eqb (String.substring (n - m) m s) suffix.

Fixpoint join (sep : string) (parts : list string) : string :=
  match parts with
  | [] => ""
  | [p] => p
  | p :: rest => p ^^ sep ^^ join sep rest
  end.

(** *** [json.dumps] with its default separators and [ensure_ascii] *)

Definition hex_digit (n : nat) : ascii :=
  match n with
  | 0 => "0" | 1 => "1" | 2 => "2" | 3 => "3" | 4 => "4" | 5 => "5"
  | 6 => "6" | 7 => "7" | 8 => "8" | 9 => "9" | 10 => "a" | 11 => "b"
  | 12 => "c" | 13 => "d" | 14 => "e" | _ => "f"
  end%char.

Definition dquote : string := String (ascii_of_nat 34) EmptyString.

Definition escape_char (c : ascii) : string :=
  let n := nat_of_ascii c in
  if Nat.eqb n 34 then "\" ^^ dquote
  else if Nat.eqb n 92 then "\\"
  else if Nat.eqb n 8 then "\b"
  else if Nat.eqb n 12 then "\f"
  else if Nat.eqb n 10 then "\n"
  else if Nat.eqb n 13 then "\r"
  else if Nat.eqb n 9 then "\t"
  else if Nat.leb 32 n && Nat.leb n 126 then String c EmptyString
  else "\u00" ^^ String (hex_digit (n / 16)) (String (hex_digit (n mod 16)) EmptyString).

Fixpoint escape_body (s : string) : string :=
  match s with
  | EmptyString => EmptyString
  | String c rest => escape_char c ^^ escape_body rest
  end.

Definition encode_basestring_ascii (s : string) : string :=
  dquote ^^ escape_body s ^^ dquote.

Fixpoint json_dumps (j : json) : string :=
  match j with
  | JNull => "null"
  | JBool true => "true"
  | JBool false => "false"
  | JInt n => string_of_Z n
  | JFloat r => r
  | JStr s => encode_basestring_ascii s
  | JArr items => "[" ^^ join ", " (map json_dumps items) ^^ "]"
  | JObj fields =>
      "{" ^^ join ", "
               (map (fun kv => encode_basestring_ascii (fst kv) ^^ ": "
                               ^^ json_dumps (snd kv)) fields)
          ^^ "}"
  end.

(** ** The job table ([backend/models.py]) *)

(** A row of the table [jobs].  [DateTime] columns hold clock readings;
    nullable columns are options.  The table is the list of its rows in
    insertion order; queries and commits reach the database and do not
    raise, except for an insert that breaks the unique [job_id]. *)
Record Job : Type := mkJob {
  id : Z;
  job_id : string;
  filename : string;
  status : string;
  summary : option string;
  result : option string;
  created_at : option Z;
  updated_at : option Z;
  completed_at : option Z
}.

Definition set_status (v : string) (j : Job) : Job :=
  mkJob (id j) (job_id j) (filename j) v (summary j) (result j)
        (created_at j) (updated_at j) (completed_at j).

Definition set_summary (v : option string) (j : Job) : Job :=
  mkJob (id j) (job_id j) (filename j) (status j) v (result j)
        (created_at j) (updated_at j) (completed_at j).

Definition set_result (v : option string) (j : Job) : Job :=
  mkJob (id j) (job_id j) (filename j) (status j) (summary j) v
        (created_at j) (updated_at j) (completed_at j).

Definition set_updated_at (v : option Z) (j : Job) : Job :=
  mkJob (id j) (job_id j) (filename j) (status j) (summary j) (result j)
        (created_at j) v (completed_at j).

Definition set_completed_at (v : option Z) (j : Job) : Job :=
  mkJob (id j) (job_id j) (filename j) (status j) (summary j) (result j)
        (created_at j) (updated_at j) v.

(** [db.query(Job).filter(Job.job_id == job_id).first()] *)
Definition query_first (jid : string) (rows : list Job) : option Job :=
  find (fun r => String.eqb (job_id r) jid) rows.

(** The next value of the integer primary key. *)
Definition next_id (rows : list Job) : Z :=
  (fold_right Z.max 0 (map id rows) + 1)%Z.

(** Flushing a loaded object: the row with its primary key takes the
    object's column values. *)
Definition flush (j : Job) (rows : list Job) : list Job :=
  map (fun r => if Z.eqb (id r) (id j) then j else r) rows.

(** ** The world and the effect monad *)

(** What [subprocess.run(argv, capture_output=True, text=True)] does: the
    process ran and left an exit code and its standard output, or it could
    not be started and [run] raises (a missing binary is a
    [FileNotFoundError]).  No timeout is passed, so [run] never raises
    [TimeoutExpired] and waits as long as the tool runs: a tool that never
    exits has no outcome here, and what is proved of a scan is proved of the
    scans whose tools have all exited. *)
Inductive process : Type :=
| CompletedProcess (returncode : Z) (stdout : string)
| LaunchError (e : exn).

(** The oracles: everything the code asks of its surroundings. *)
Record env : Type := mkEnv {
  CONDA_ENV_PATH : string;
  path_exists : string -> bool;
  rglob_py : string -> list string;
  subprocess_run : list string -> process;
  json_loads : string -> option json;
  utcnow_at : nat -> Z;
  uuid4_at : nat -> string;
  extractall : string -> string -> option exn;
  format_exc : exn -> string
}.

(** The mutable state: the committed job table, the broker's queue of
    [(job_id, extract_path)] messages, the processes launched so far, the
    files written under [uploads/], and how often the clock and the uuid
    generator were read. *)
Record world : Type := mkWorld {
  db : list Job;
  queue : list (string * string);
  calls : list (list string);
  written : list string;
  clock_reads : nat;
  uuid_draws : nat
}.

Definition M (A : Type) : Type := world -> outcome A * world.

Definition ret {A : Type} (a : A) : M A := fun w => (Ok a, w).

Definition raise {A : Type} (e : exn) : M A := fun w => (Raise e, w).

(** A computation without effects, run inside [M]. *)
Definition lift {A : Type} (o : outcome A) : M A := fun w => (o, w).

Definition bind {A B : Type} (m : M A) (k : A -> M B) : M B :=
  fun w =>
    match m w with
    | (Ok a, w') => k a w'
    | (Raise e, w') => (Raise e, w')
    end.

(** [try: body  except Exception as e: handler(e)] *)
Definition try_except {A : Type} (body : M A) (handler : exn -> M A) : M A :=
  fun w =>
    match body w with
    | (Ok a, w') => (Ok a, w')
    | (Raise e, w') => handler e w'
    end.

Notation "x <- m ;; k" := (bind m (fun x => k))
  (at level 61, m at next level, right associativity).
Notation "m ;;; k" := (bind m (fun _ => k))
  (at level 61, right associativity).

Definition set_db (rows : list Job) (w : world) : world :=
  mkWorld rows (queue w) (calls w) (written w) (clock_reads w) (uuid_draws w).

Definition set_queue (q : list (string * string)) (w : world) : world :=
  mkWorld (db w) q (calls w) (written w) (clock_reads w) (uuid_draws w).

Definition log_call (argv : list string) (w : world) : world :=
  mkWorld (db w) (queue w) (calls w ++ [argv]) (written w)
          (clock_reads w) (uuid_draws w).

Definition log_write (path : string) (w : world) : world :=
  mkWorld (db w) (queue w) (calls w) (written w ++ [path])
          (clock_reads w) (uuid_draws w).

Definition tick (w : world) : world :=
  mkWorld (db w) (queue w) (calls w) (written w)
          (S (clock_reads w)) (uuid_draws w).

Definition draw (w : world) : world :=
  mkWorld (db w) (queue w) (calls w) (written w)
          (clock_reads w) (S (uuid_draws w)).

(** [parent / name] on paths *)
Definition path_join (parent name : string) : string := parent ^^ "/" ^^ name.

Section Program.

Variable E : env.

(** *** Primitive effects *)

(** [subprocess.run(argv, capture_output=True, text=True)] *)
Definition run (argv : list string) : M (Z * string) :=
  fun w =>
    match subprocess_run E argv with
    | CompletedProcess rc out => (Ok (rc, out), log_call argv w)
    | LaunchError e => (Raise e, log_call argv w)
    end.

(** [datetime.utcnow()] *)
Definition utcnow : M Z :=
  fun w => (Ok (utcnow_at E (clock_reads w)), tick w).

(** [str(uuid.uuid4())] *)
Definition uuid4 : M string :=
  fun w => (Ok (uuid4_at E (uuid_draws w)), draw w).

(** ** The analyzer adapters ([scanner/scanner.py]) *)

Definition bandit_argv (project_path : string) : list string :=
  [CONDA_ENV_PATH E ^^ "/bin/bandit"; "-r"; project_path; "-f"; "json"].

Definition run_bandit (project_path : string) : M json :=
  result <- run (bandit_argv project_path) ;;
  match json_loads E (snd result) with
  | Some v => ret v
  | None => ret (JObj [("error", JStr "Bandit scan failed")])
  end.

Definition semgrep_argv (project_path : string) : list string :=
  [CONDA_ENV_PATH E ^^ "/bin/semgrep"; "--config=auto"; project_path; "--json"].

Definition run_semgrep (project_path : string) : M json :=
  result <- run (semgrep_argv project_path) ;;
  match json_loads E (snd result) with
  | Some v => ret v
  | None => ret (JObj [("error", JStr "Semgrep scan failed")])
  end.

Definition pip_audit_argv (requirements : string) : list string :=
  [CONDA_ENV_PATH E ^^ "/bin/pip-audit"; "-r"; requirements; "-f"; "json"].

Definition run_pip_audit (project_path : string) : M json :=
  let requirements := path_join project_path "requirements.txt" in
  if negb (path_exists E requirements) then
    ret (JObj [("vulnerabilities_found", JInt 0); ("details", JArr [])])
  else
    result <- run (pip_audit_argv requirements) ;;
    match json_loads E (snd result) with
    | Some v => ret v
    | None => ret (JObj [("error", JStr "pip-audit failed")])
    end.

Definition pylint_argv (f : string) : list string :=
  [CONDA_ENV_PATH E ^^ "/bin/pylint"; f; "-f"; "json"].

(** The body of [for f in py_files], with [results] as accumulator. *)
Fixpoint pylint_loop (py_files : list string) (results : list json)
  : M (list json) :=
  match py_files with
  | [] => ret results
  | f :: rest =>
      result <- run (pylint_argv f) ;;
      match json_loads E (snd result) with
      | Some v => pylint_loop rest (results ++ [v])
      | None =>
          pylint_loop rest
            (results ++ [JObj [("file", JStr f); ("error", JStr "pylint failed")]])
      end
  end.

Definition run_pylint (project_path : string) : M json :=
  let py_files := rglob_py E project_path in
  results <- pylint_loop py_files [] ;;
  ret (JArr results).

(** ** The aggregator *)

Definition scan_project (project_path : string) : M json :=
  bandit_results <- run_bandit project_path ;;
  semgrep_results <- run_semgrep project_path ;;
  pip_audit_results <- run_pip_audit project_path ;;
  pylint_results <- run_pylint project_path ;;
  ret (JObj [("static_code_analysis",
              JObj [("bandit", bandit_results); ("semgrep", semgrep_results)]);
             ("dependency_scan", pip_audit_results);
             ("coding_standards", pylint_results);
             ("summary", JStr "Scan completed")]).

(** ** The Celery task ([backend/tasks.py])

    [upload_project] schedules this task and nothing else; [run_scan] of
    [main.py], an in-process variant of the same body that labels the middle
    state "running", is never scheduled. *)

(** [db.commit()] after attribute assignments on the loaded [job], while the
    row is in the table: the row takes the object's values.  A row deleted by
    another session between the load and the commit makes the real commit
    raise; no operation of the task's own removes a row, and that
    interleaving with [delete_job] is not described by this function. *)
Definition commit (job : Job) : M unit :=
  fun w => (Ok tt, set_db (flush job (db w)) w).

(** "Mark job as ongoing" up to the first commit. *)
Definition mark_ongoing (job : Job) : M Job :=
  let job := set_status "ongoing" job in
  now <- utcnow ;;
  let job := set_updated_at (Some now) job in
  commit job ;;;
  ret job.

(** "Save result": the statements after [scan_project] returned. *)
Definition save_result (job : Job) (scan_result : json) : M unit :=
  let job := set_status "completed" job in
  let job := set_result (Some (json_dumps scan_result)) job in
  issues <- lift (py_get scan_result "issues" (JArr [])) ;;
  n <- lift (py_len issues) ;;
  let job := set_summary
               (Some ("Scan finished with " ^^ string_of_nat n ^^ " issues"))
               job in
  now <- utcnow ;;
  let job := set_completed_at (Some now) job in
  now <- utcnow ;;
  let job := set_updated_at (Some now) job in
  commit job.

(** The [except Exception as e] block, entered with the loaded [job]. *)
Definition save_failure (job : Job) (e : exn) : M unit :=
  let job := set_status "failed" job in
  let job := set_result
               (Some (json_dumps (JObj [("error", JStr (exn_msg e));
                                        ("trace", JStr (format_exc E e))]))) job in
  now <- utcnow ;;
  let job := set_updated_at (Some now) job in
  commit job.

(** "Run the actual scan" and what follows it, under the task's handler. *)
Definition scan_and_save (job : Job) (extract_path : string) : M unit :=
  try_except
    (scan_result <- scan_project extract_path ;;
     save_result job scan_result)
    (save_failure job).

Definition run_scan_task (job_id : string) (extract_path : string) : M unit :=
  fun w =>
    match query_first job_id (db w) with
    | None => (Ok tt, w)
    | Some job =>
        (job <- mark_ongoing job ;;
         scan_and_save job extract_path) w
    end.

(** ** Upload and reads ([backend/main.py]) *)

Definition UPLOAD_DIR : string := "uploads".

(** [extract_zip]: [mkdir] of the target, then [ZipFile.extractall], which
    raises on a corrupt archive. *)
Definition extract_zip (file_path extract_to : string) : M string :=
  fun w =>
    match extractall E file_path extract_to with
    | None => (Ok extract_to, log_write extract_to w)
    | Some e => (Raise e, log_write extract_to w)
    end.

(** [open(file_path, "wb")] and [shutil.copyfileobj], for a [file_path]
    whose directory is [uploads/]: a filename that carries a path separator
    names a directory that need not exist and is not described here. *)
Definition save_upload (file_path : string) : M unit :=
  fun w => (Ok tt, log_write file_path w).

(** [db.add(job); db.commit()]: the insert takes the next primary key and is
    refused when [job_id], a unique column, is already present. *)
Definition add_and_commit (job : Job) : M unit :=
  fun w =>
    if existsb (fun r => String.eqb (job_id r) (job_id job)) (db w) then
      (Raise (Exn "IntegrityError" "UNIQUE constraint failed: jobs.job_id"), w)
    else
      (Ok tt,
       set_db (db w ++ [mkJob (next_id (db w)) (job_id job) (filename job)
                              (status job) (summary job) (result job)
                              (created_at job) (updated_at job)
                              (completed_at job)]) w).

(** [run_scan_task.delay(job_id, extract_path)] with the broker in reach:
    the message joins the queue.  An unreachable broker makes the real call
    raise, after the row is committed; that failure is not described
    here. *)
Definition delay (job_id extract_path : string) : M unit :=
  fun w => (Ok tt, set_queue (queue w ++ [(job_id, extract_path)]) w).

(** [upload_project]; [file_name] is [file.filename]. *)
Definition upload_project (file_name : option string) : M json :=
  try_except
    (match file_name with
     | None => raise (Exn "ValueError" "No filename provided")
     | Some name =>
         if String.eqb name "" then
           raise (Exn "ValueError" "No filename provided")
         else if negb (endswith name ".zip") then
           raise (Exn "ValueError" "File must be a ZIP file")
         else
           job_id <- uuid4 ;;
           let file_path := path_join UPLOAD_DIR (job_id ^^ "_" ^^ name) in
           save_upload file_path ;;;
           let extract_path := path_join UPLOAD_DIR (job_id ^^ "_extracted") in
           extract_zip file_path extract_path ;;;
           created <- utcnow ;;
           updated <- utcnow ;;
           add_and_commit
             (mkJob 0 job_id name "pending" None (Some (json_dumps (JObj [])))
                    (Some created) (Some updated) None) ;;;
           delay job_id extract_path ;;;
           ret (JObj [("job_id", JStr job_id); ("status", JStr "pending")])
     end)
    (fun e => raise e).

Definition json_of_time (t : option Z) : json :=
  match t with
  | Some v => JInt v
  | None => JNull
  end.

Definition json_of_text (t : option string) : json :=
  match t with
  | Some v => JStr v
  | None => JNull
  end.

(** [get_job]: a read of one row with its decoded result. *)
Definition get_job (jid : string) : M json :=
  fun w =>
    match query_first jid (db w) with
    | None => (Ok (JObj [("error", JStr "Job not found")]), w)
    | Some job =>
        match result job with
        | None => (Raise (Exn "TypeError" "the JSON object must be str"), w)
        | Some text =>
            match json_loads E text with
            | None => (Raise (Exn "JSONDecodeError" "invalid document"), w)
            | Some doc =>
                (Ok (JObj [("job_id", JStr (job_id job));
                           ("filename", JStr (filename job));
                           ("status", JStr (status job));
                           ("summary", json_of_text (summary job));
                           ("result", doc);
                           ("created_at", json_of_time (created_at job));
                           ("updated_at", json_of_time (updated_at job));
                           ("completed_at", json_of_time (completed_at job))]),
                 w)
            end
        end
    end.

End Program.

(** ** The score of [generate_html_report] *)

Definition and_then {A B : Type} (o : outcome A) (k : A -> outcome B)
  : outcome B :=
  match o with
  | Ok a => k a
  | Raise e => Raise e
  end.

Notation "x <~ o ;; k" := (and_then o (fun x => k))
  (at level 61, o at next level, right associativity).

(** [r.get('issue_severity') == severity] *)
Definition has_severity (severity : string) (r : json) : outcome bool :=
  v <~ py_get r "issue_severity" JNull ;;
  Ok match v with
     | JStr s => String.eqb s severity
     | _ => false
     end.

(** [len([r for r in results if r.get('issue_severity') == severity])] *)
Fixpoint count_severity (severity : string) (results : list json)
  : outcome nat :=
  match results with
  | [] => Ok 0%nat
  | r :: rest =>
      hit <~ has_severity severity r ;;
      n <~ count_severity severity rest ;;
      Ok (if hit then S n else n)
  end.

Record scores : Type := mkScores {
  total_issues : Z;
  critical_issues : Z;
  high_issues : Z;
  score : Q
}.

(** The block "Calculate scores and counts" and "Calculate security score"
    of [generate_html_report]; the markup that follows only prints these. *)
Definition generate_html_report_scores (scan_results : json) : outcome scores :=
  sca <~ py_get scan_results "static_code_analysis" (JObj []) ;;
  bandit <~ py_get sca "bandit" (JObj []) ;;
  bandit_results <~ py_get bandit "results" (JArr []) ;;
  sca <~ py_get scan_results "static_code_analysis" (JObj []) ;;
  semgrep <~ py_get sca "semgrep" (JObj []) ;;
  semgrep_results <~ py_get semgrep "results" (JArr []) ;;
  dep <~ py_get scan_results "dependency_analysis" (JObj []) ;;
  pip_audit <~ py_get dep "pip_audit" (JObj []) ;;
  pip_audit_results <~ py_get pip_audit "vulnerabilities" (JArr []) ;;
  n_bandit <~ py_len bandit_results ;;
  n_semgrep <~ py_len semgrep_results ;;
  n_pip_audit <~ py_len pip_audit_results ;;
  let total := (Z.of_nat n_bandit + Z.of_nat n_semgrep + Z.of_nat n_pip_audit)%Z in
  rs <~ py_iter bandit_results ;;
  critical <~ count_severity "HIGH" rs ;;
  rs <~ py_iter bandit_results ;;
  high <~ count_severity "MEDIUM" rs ;;
  let critical := Z.of_nat critical in
  let high := Z.of_nat high in
  let s := (inject_Z 10 - inject_Z (critical * 3) - inject_Z (high * 1)
            - inject_Z (total - critical - high) * (1 # 2))%Q in
  Ok (mkScores total critical high (Qmax 0 (Qmin 10 s))).

(** ** The running system

    Requests and workers interleave between commits.  A worker takes one
    message off the queue, loads and marks the job ([step_begin]) and later
    scans and saves ([step_finish]); [inflight] holds the jobs loaded by
    workers that are between the two.  The oracles may differ from step to
    step.  Each message is handed to one worker, once, and no step removes a
    row: [step] has the runs of uploads, reads and single deliveries.  What
    a second delivery of a message does is [step_again] below. *)

Record system : Type := mkSystem {
  sys_world : world;
  inflight : list (Job * string)
}.

Inductive step (s : system) : system -> Prop :=
| step_upload (E : env) (file_name : option string) r w' :
    upload_project E file_name (sys_world s) = (r, w') ->
    step s (mkSystem w' (inflight s))
| step_read (E : env) (jid : string) r w' :
    get_job E jid (sys_world s) = (r, w') ->
    step s (mkSystem w' (inflight s))
| step_discard (q1 q2 : list (string * string)) (t : string * string) :
    queue (sys_world s) = q1 ++ t :: q2 ->
    query_first (fst t) (db (sys_world s)) = None ->
    step s (mkSystem (set_queue (q1 ++ q2) (sys_world s)) (inflight s))
| step_begin (E : env) (q1 q2 : list (string * string)) (t : string * string)
             job r w' :
    queue (sys_world s) = q1 ++ t :: q2 ->
    query_first (fst t) (db (sys_world s)) = Some job ->
    mark_ongoing E job (set_queue (q1 ++ q2) (sys_world s)) = (Ok r, w') ->
    step s (mkSystem w' ((r, snd t) :: inflight s))
| step_finish (E : env) (i1 i2 : list (Job * string)) job path r w' :
    inflight s = i1 ++ (job, path) :: i2 ->
    scan_and_save E job path (sys_world s) = (r, w') ->
    step s (mkSystem w' (i1 ++ i2)).

Inductive reachable : system -> Prop :=
| reach_init w :
    db w = [] -> queue w = [] -> reachable (mkSystem w [])
| reach_step s s' :
    reachable s -> step s s' -> reachable s'.

Definition is_terminal (st : string) : bool :=
  String.eqb st "completed" || String.eqb st "failed".

(** A result column is empty when it is NULL, the empty text, or the
    placeholder written at submission. *)
Definition result_is_empty (r : option string) : bool :=
  match r with
  | None => true
  | Some text => String.eqb text "" || String.eqb text (json_dumps (JObj []))
  end.



(** [file.filename] passes the two checks of [upload_project]. *)
Definition accepted_filename (file_name : option string) : bool :=
  match file_name with
  | None => false
  | Some name => negb (String.eqb name "") && endswith name ".zip"
  end.

(** ** Sample surroundings *)

(** A decoder that knows the listed documents by their serialization and
    rejects every other text. *)
Definition loads_of (docs : list json) (text : string) : option json :=
  find (fun d => String.eqb (json_dumps d) text) docs.

Definition medium_issue : json :=
  JObj [("filename", JStr "app/views.py");
        ("issue_severity", JStr "MEDIUM");
        ("issue_text", JStr "Possible binding to all interfaces.");
        ("line_number", JInt 12)].

Definition bandit_report (results : list json) : json :=
  JObj [("errors", JArr []); ("results", JArr results)].

Definition three_medium : json :=
  bandit_report [medium_issue; medium_issue; medium_issue].

Definition semgrep_clean : json :=
  JObj [("errors", JArr []); ("results", JArr [])].

Definition audit_report : json :=
  JObj [("pip_audit",
         JObj [("vulnerabilities",
                JArr [JObj [("package", JStr "django");
                            ("installed_version", JStr "2.2");
                            ("vulnerability", JStr "PYSEC-2021-98")]])])].

Definition program_of (argv : list string) : string :=
  match argv with
  | [] => ""
  | prog :: _ => prog
  end.

(** Bandit finds three medium issues and, as it does when it has findings,
    exits with 1; semgrep is clean; pip-audit reports one vulnerable
    package; pylint prints nothing that parses. *)
Definition tools_report (argv : list string) : process :=
  if String.eqb (program_of argv) "/opt/conda/bin/bandit" then
    CompletedProcess 1 (json_dumps three_medium)
  else if String.eqb (program_of argv) "/opt/conda/bin/semgrep" then
    CompletedProcess 0 (json_dumps semgrep_clean)
  else if String.eqb (program_of argv) "/opt/conda/bin/pip-audit" then
    CompletedProcess 1 (json_dumps audit_report)
  else CompletedProcess 2 "".

(** The bandit executable is not installed. *)
Definition bandit_missing (argv : list string) : process :=
  if String.eqb (program_of argv) "/opt/conda/bin/bandit" then
    LaunchError (Exn "FileNotFoundError"
                "[Errno 2] No such file or directory: '/opt/conda/bin/bandit'")
  else tools_report argv.

Definition sample_env (manifest : bool) (tools : list string -> process)
  : env :=
  mkEnv "/opt/conda"
        (fun _ => manifest)
        (fun p => [path_join p "manage.py"])
        tools
        (loads_of [three_medium; semgrep_clean; audit_report])
        (fun n => (1000 + Z.of_nat n)%Z)
        (fun n => "job-" ^^ string_of_nat n)
        (fun _ _ => None)
        (fun e => "Traceback (most recent call last): " ^^ exn_type e).

Definition empty_world : world := mkWorld [] [] [] [] 0 0.

(** One upload, then the worker's two phases, under given tools. *)
Definition after_upload : world :=
  snd (upload_project (sample_env false tools_report) (Some "project.zip")
                      empty_world).

(** The broker hands the first message to a worker. *)
Definition delivered (w : world) : world := set_queue (tl (queue w)) w.

Definition after_task (tools : list string -> process) : world :=
  snd (run_scan_task (sample_env false tools) "job-0"
                     "uploads/job-0_extracted" (delivered after_upload)).

(** The same message handed to a worker once more, after the job completed. *)
Definition redelivered (tools : list string -> process) : world :=
  snd (run_scan_task (sample_env false tools) "job-0"
                     "uploads/job-0_extracted" (after_task tools_report)).


(** The document [scan_project] builds from its four results. *)
Definition scan_document (bandit semgrep pip_audit pylint : json) : json :=
  JObj [("static_code_analysis",
         JObj [("bandit", bandit); ("semgrep", semgrep)]);
        ("dependency_scan", pip_audit);
        ("coding_standards", pylint);
        ("summary", JStr "Scan completed")].

(** The document stored by a scan of a project with a manifest. *)
Definition audited_document : json :=
  scan_document three_medium semgrep_clean audit_report
    (JArr [JObj [("file", JStr "uploads/job-0_extracted/manage.py");
                 ("error", JStr "pylint failed")]]).

(** Every launch starts its process, whatever the process then does. *)
Definition launches (E : env) : Prop :=
  forall argv, exists rc out, subprocess_run E argv = CompletedProcess rc out.

(** [v] is what an adapter makes of the process [argv]: the decoded standard
    output, or [fallback] when the output does not parse. *)
Definition entry_of (E : env) (argv : list string) (fallback v : json) : Prop :=
  exists rc out,
    subprocess_run E argv = CompletedProcess rc out /\
    v = match json_loads E out with
        | Some d => d
        | None => fallback
        end.

Definition pylint_entry (E : env) (f : string) (v : json) : Prop :=
  entry_of E (pylint_argv E f)
           (JObj [("file", JStr f); ("error", JStr "pylint failed")]) v.

(** The part of the world an adapter leaves alone: all but the call log. *)
Definition only_calls (w w' : world) : Prop :=
  db w' = db w /\ queue w' = queue w /\ written w' = written w /\
  clock_reads w' = clock_reads w /\ uuid_draws w' = uuid_draws w.

Definition no_manifest_result : json :=
  JObj [("vulnerabilities_found", JInt 0); ("details", JArr [])].

(** ** The shapes a row takes during its life *)

Definition placeholder : option string := Some (json_dumps (JObj [])).

Definition pending_shape (j : Job) : Prop :=
  status j = "pending" /\ result j = placeholder /\
  summary j = None /\ completed_at j = None.

Definition ongoing_shape (j : Job) : Prop :=
  status j = "ongoing" /\ result j = placeholder /\
  summary j = None /\ completed_at j = None.

Definition completed_shape (j : Job) : Prop :=
  status j = "completed" /\
  (exists b s d l,
      result j = Some (json_dumps (scan_document b s d (JArr l)))) /\
  summary j = Some "Scan finished with 0 issues" /\
  (exists t, completed_at j = Some t).

Definition failed_shape (j : Job) : Prop :=
  status j = "failed" /\
  (exists msg trace,
      result j = Some (json_dumps (JObj [("error", JStr msg);
                                         ("trace", JStr trace)]))) /\
  summary j = None /\ completed_at j = None.

Definition lifecycle_shape (j : Job) : Prop :=
  pending_shape j \/ ongoing_shape j \/ completed_shape j \/ failed_shape j.

(** One status change the executor makes. *)
Definition advances (before after : string) : Prop :=
  (before = "pending" /\ after = "ongoing") \/
  (before = "ongoing" /\ (after = "completed" \/ after = "failed")).

(** The invariant of the running system: keys are unique, every message
    waits for a pending row, every worker between its two commits holds a
    row marked ongoing, and every row has one of the four shapes. *)
Record invariant (s : system) : Prop := mkInvariant {
  inv_job_ids : NoDup (map job_id (db (sys_world s)));
  inv_ids : NoDup (map id (db (sys_world s)));
  inv_queue : NoDup (map fst (queue (sys_world s)));
  inv_inflight : NoDup (map (fun e => id (fst e)) (inflight s));
  inv_queued :
    forall t, In t (queue (sys_world s)) ->
              exists j, In j (db (sys_world s)) /\ job_id j = fst t /\
                        pending_shape j;
  inv_running :
    forall e, In e (inflight s) ->
              In (fst e) (db (sys_world s)) /\ ongoing_shape (fst e);
  inv_rows :
    forall j, In j (db (sys_world s)) -> lifecycle_shape j
}.

(** The first row of the table, for reading sample worlds. *)
Definition first_row (w : world) : Job :=
  hd (mkJob 0 "" "" "" None None None None None) (db w).

(** The sample system when a worker has loaded and marked the job. *)
Definition sample_begun : system :=
  mkSystem
    (snd (mark_ongoing (sample_env false tools_report) (first_row after_upload)
                       (delivered after_upload)))
    [(set_updated_at (Some 1002%Z) (set_status "ongoing" (first_row after_upload)),
      "uploads/job-0_extracted")].

(** ** More of [backend/main.py] *)

(** [run_scan], the in-process variant of the task: it labels the middle
    state "running" and its handler queries the job again. *)
Definition run_scan (E : env) (job_id extract_path : string) : M unit :=
  try_except
    (fun w =>
       match query_first job_id (db w) with
       | None => (Ok tt, w)
       | Some job =>
           (let job := set_status "running" job in
            now <- utcnow E ;;
            let job := set_updated_at (Some now) job in
            commit job ;;;
            scan_result <- scan_project E extract_path ;;
            save_result E job scan_result) w
       end)
    (fun e w =>
       match query_first job_id (db w) with
       | None => (Ok tt, w)
       | Some job => save_failure E job e w
       end).

(** One item of [get_all_jobs]: the row without its result. *)
Definition job_summary (j : Job) : json :=
  JObj [("job_id", JStr (job_id j));
        ("filename", JStr (filename j));
        ("status", JStr (status j));
        ("summary", json_of_text (summary j));
        ("created_at", json_of_time (created_at j));
        ("updated_at", json_of_time (updated_at j));
        ("completed_at", json_of_time (completed_at j))].

(** [get_all_jobs] *)
Definition get_all_jobs : M json :=
  fun w => (Ok (JArr (map job_summary (db w))), w).

(** [db.delete(job)]: the row with the object's primary key goes. *)
Definition db_delete (job : Job) (rows : list Job) : list Job :=
  filter (fun r => negb (Z.eqb (id r) (id job))) rows.

(** [if path.exists(): unlink or rmtree]; [written] holds the files and
    directories the program created and has not removed. *)
Definition remove_path (path : string) (w : world) : world :=
  mkWorld (db w) (queue w) (calls w)
          (filter (fun p => negb (String.eqb p path)) (written w))
          (clock_reads w) (uuid_draws w).

(** The loop over [upload_path] and [extract_path] of a job. *)
Definition remove_job_files (jid : string) (job : Job) (w : world) : world :=
  let upload_path := path_join UPLOAD_DIR (jid ^^ "_" ^^ filename job) in
  let extract_path := path_join UPLOAD_DIR (jid ^^ "_extracted") in
  remove_path extract_path (remove_path upload_path w).

(** [delete_job] *)
Definition delete_job (jid : string) : M json :=
  fun w =>
    match query_first jid (db w) with
    | None => (Ok (JObj [("error", JStr "Job not found")]), w)
    | Some job =>
        let w := set_db (db_delete job (db w)) w in
        let w := remove_job_files jid job w in
        (Ok (JObj [("message",
                    JStr ("Job " ^^ jid ^^ " deleted successfully"))]), w)
    end.

(** [delete_all_jobs] *)
Definition delete_all_jobs : M json :=
  fun w =>
    let all_jobs := db w in
    let deleted_count := List.length all_jobs in
    if Nat.eqb deleted_count 0 then
      (Ok (JObj [("message", JStr "No jobs to delete");
                 ("deleted_count", JInt 0)]), w)
    else
      let w := fold_left
                 (fun w job =>
                    let w := remove_job_files (job_id job) job w in
                    set_db (db_delete job (db w)) w)
                 all_jobs w in
      (Ok (JObj [("message",
                  JStr ("All " ^^ string_of_nat deleted_count
                        ^^ " jobs deleted successfully"));
                 ("deleted_count", JInt (Z.of_nat deleted_count))]), w).

(** ** Reading a scan as a sequence of launches *)

(** The call log grown by [cs]. *)
Definition add_calls (cs : list (list string)) (w : world) : world :=
  mkWorld (db w) (queue w) (calls w ++ cs) (written w)
          (clock_reads w) (uuid_draws w).

(** The launches [scan_project] has in its program for a project, in order. *)
Definition planned (E : env) (p : string) : list (list string) :=
  [bandit_argv E p; semgrep_argv E p]
    ++ (if path_exists E (path_join p "requirements.txt")
        then [pip_audit_argv E (path_join p "requirements.txt")]
        else [])
    ++ map (pylint_argv E) (rglob_py E p).

(** The launches up to and including the first that cannot start. *)
Fixpoint attempted (E : env) (argvs : list (list string))
  : list (list string) :=
  match argvs with
  | [] => []
  | a :: rest =>
      match subprocess_run E a with
      | CompletedProcess _ _ => a :: attempted E rest
      | LaunchError _ => [a]
      end
  end.

(** The exception of the first launch that cannot start. *)
Fixpoint first_failure (E : env) (argvs : list (list string)) : option exn :=
  match argvs with
  | [] => None
  | a :: rest =>
      match subprocess_run E a with
      | CompletedProcess _ _ => first_failure E rest
      | LaunchError e => Some e
      end
  end.

(** [m] launches [argvs] as far as they start, changes nothing but the call
    log, and ends in [r], which is the first launch error when there is
    one. *)
Definition traces {A : Type} (E : env) (m : M A) (argvs : list (list string))
           (r : outcome A) : Prop :=
  (forall w, m w = (r, add_calls (attempted E argvs) w)) /\
  match first_failure E argvs with
  | Some e => r = Raise e
  | None => exists a, r = Ok a
  end.

(** ** More sample surroundings *)

(** Like [sample_env], with the documents the decoder knows and the fate of
    the archive as parameters. *)
Definition sample_env_with (docs : list json) (unzip : option exn) : env :=
  mkEnv "/opt/conda"
        (fun _ => false)
        (fun p => [path_join p "manage.py"])
        tools_report
        (loads_of docs)
        (fun n => (1000 + Z.of_nat n)%Z)
        (fun n => "job-" ^^ string_of_nat n)
        (fun _ _ => unzip)
        (fun e => "Traceback (most recent call last): " ^^ exn_type e).

(** The archive is not a zip file. *)
Definition corrupt_env : env :=
  sample_env_with [] (Some (Exn "BadZipFile" "File is not a zip file")).

(** The document stored by the sample task. *)
Definition stored_document : json :=
  scan_document three_medium semgrep_clean no_manifest_result
    (JArr [JObj [("file", JStr "uploads/job-0_extracted/manage.py");
                 ("error", JStr "pylint failed")]]).

(** A decoder that reads back what the sample runs store. *)
Definition reading_env : env :=
  sample_env_with [JObj []; three_medium; semgrep_clean; stored_document] None.

(** The row a successful upload inserts. *)
Definition uploaded_row (E : env) (name : string) (w : world) : Job :=
  mkJob (next_id (db w)) (uuid4_at E (uuid_draws w)) name "pending" None
        (Some (json_dumps (JObj [])))
        (Some (utcnow_at E (clock_reads w)))
        (Some (utcnow_at E (S (clock_reads w)))) None.

(** The paths a job's files live under. *)
Definition archive_path (jid name : string) : string :=
  path_join UPLOAD_DIR (jid ^^ "_" ^^ name).

Definition extracted_path (jid : string) : string :=
  path_join UPLOAD_DIR (jid ^^ "_extracted").

(** ** Reading the score *)

Definition is_object (r : json) : bool :=
  match r with
  | JObj _ => true
  | _ => false
  end.

(** The finding is an object whose [issue_severity] is the string
    [severity]. *)
Definition severity_is (severity : string) (r : json) : bool :=
  match r with
  | JObj fields =>
      match assoc "issue_severity" fields with
      | Some (JStr s) => String.eqb s severity
      | _ => false
      end
  | _ => false
  end.

(** ** The logger ([backend/logger.py])

    The buffer of a [BackendLogger] and the lines of its file are explicit
    state; the clock reading of an entry and the success of a file
    operation are arguments. *)

(** A [BackendLogger] object. *)
Record BackendLogger : Type := mkLogger {
  log_file : string;
  logs : list json;
  max_logs : nat
}.

(** [BackendLogger(log_file)] *)
Definition new_logger (file : string) : BackendLogger := mkLogger file [] 1000.

(** [l[-n:]]: the last [n] items, and, as [-0] is [0], all of them for
    [n = 0]. *)
Definition last_items {A : Type} (n : nat) (l : list A) : list A :=
  if Nat.eqb n 0 then l else skipn (List.length l - n) l.

(** The entry [log] builds; [data or {}] turns a missing or empty [data]
    into the empty dict. *)
Definition log_entry (timestamp level source message : string)
           (data : option (list (string * json))) : json :=
  JObj [("timestamp", JStr timestamp);
        ("level", JStr level);
        ("source", JStr source);
        ("message", JStr message);
        ("data", JObj match data with
                      | Some fields => fields
                      | None => []
                      end)].

(** [log]: [timestamp] is [datetime.utcnow().isoformat()]; [file] holds the
    lines of the log file, [None] when it does not exist; [writable] tells
    whether appending to it succeeds, a failure being caught and printed. *)
Definition log (timestamp : string) (writable : bool)
           (level source message : string)
           (data : option (list (string * json)))
           (st : BackendLogger * option (list string))
  : BackendLogger * option (list string) :=
  let (self, file) := st in
  let entry := log_entry timestamp level source message data in
  let appended := logs self ++ [entry] in
  let kept := if Nat.ltb (max_logs self) (List.length appended)
              then last_items (max_logs self) appended
              else appended in
  (mkLogger (log_file self) kept (max_logs self),
   if writable then
     Some (match file with
           | Some lines => lines
           | None => []
           end ++ [json_dumps entry])
   else file).

Definition info (timestamp : string) (writable : bool) (source message : string)
           (data : option (list (string * json)))
           (st : BackendLogger * option (list string)) :=
  log timestamp writable "INFO" source message data st.

Definition error (timestamp : string) (writable : bool)
           (source message : string)
           (data : option (list (string * json)))
           (st : BackendLogger * option (list string)) :=
  log timestamp writable "ERROR" source message data st.

(** [get_logs] *)
Definition get_logs (self : BackendLogger) : list json := logs self.

(** [clear_logs]: [removable] tells whether unlinking the file succeeds, a
    failure being caught and printed. *)
Definition clear_logs (removable : bool)
           (st : BackendLogger * option (list string))
  : BackendLogger * option (list string) :=
  (mkLogger (log_file (fst st)) [] (max_logs (fst st)),
   if removable then None else snd st).

(** One call of [log] as data: its clock reading, whether the file could be
    written, and its arguments. *)
Record log_call_args : Type := mkLogCall {
  call_timestamp : string;
  call_writable : bool;
  call_level : string;
  call_source : string;
  call_message : string;
  call_data : option (list (string * json))
}.

Definition entry_of_call (c : log_call_args) : json :=
  log_entry (call_timestamp c) (call_level c) (call_source c)
            (call_message c) (call_data c).

(** A sequence of [log] calls. *)
Definition log_all (cs : list log_call_args)
           (st : BackendLogger * option (list string))
  : BackendLogger * option (list string) :=
  fold_left
    (fun st c => log (call_timestamp c) (call_writable c) (call_level c)
                     (call_source c) (call_message c) (call_data c) st)
    cs st.

(** ** The log endpoints and the JSON report ([backend/main.py]) *)

(** [GET /logs]: the access is logged before the buffer is read. *)
Definition get_logs_endpoint (timestamp : string) (writable : bool)
           (st : BackendLogger * option (list string))
  : json * (BackendLogger * option (list string)) :=
  let st := info timestamp writable "BACKEND" "Logs endpoint accessed" None st in
  (JObj [("logs", JArr (get_logs (fst st)));
         ("total_logs", JInt (Z.of_nat (List.length (get_logs (fst st)))))],
   st).

(** [DELETE /logs]: the access is logged, then everything is cleared. *)
Definition clear_logs_endpoint (timestamp : string) (writable removable : bool)
           (st : BackendLogger * option (list string))
  : json * (BackendLogger * option (list string)) :=
  let st := info timestamp writable "BACKEND" "Clear logs endpoint accessed"
                 None st in
  let st := clear_logs removable st in
  (JObj [("message", JStr "Logs cleared successfully")], st).

Definition REPORTS_DIR : string := "reports".

(** [t.isoformat() if t else None] *)
Definition iso_or_none (isoformat : Z -> string) (t : option Z) : json :=
  match t with
  | Some v => JStr (isoformat v)
  | None => JNull
  end.

(** [get_json_report]: the report it writes under [reports/] and serves;
    [isoformat] is [datetime.isoformat].  The result is decoded only when
    the column is neither NULL nor empty. *)
Definition get_json_report (E : env) (isoformat : Z -> string) (jid : string)
  : M json :=
  fun w =>
    match query_first jid (db w) with
    | None => (Ok (JObj [("error", JStr "Job not found")]), w)
    | Some job =>
        (scan_results <-
           lift (match result job with
                 | None => Ok (JObj [])
                 | Some text =>
                     if String.eqb text "" then Ok (JObj [])
                     else match json_loads E text with
                          | Some doc => Ok doc
                          | None =>
                              Raise (Exn "JSONDecodeError" "invalid document")
                          end
                 end) ;;
         now <- utcnow E ;;
         let report :=
           JObj [("job_info",
                  JObj [("job_id", JStr (job_id job));
                        ("filename", JStr (filename job));
                        ("status", JStr (status job));
                        ("summary", json_of_text (summary job));
                        ("created_at", iso_or_none isoformat (created_at job));
                        ("updated_at", iso_or_none isoformat (updated_at job));
                        ("completed_at",
                         iso_or_none isoformat (completed_at job))]);
                 ("scan_results", scan_results);
                 ("report_metadata",
                  JObj [("generated_at", JStr (isoformat now));
                        ("report_version", JStr "1.0");
                        ("generator", JStr "DWAS Scanner")])] in
         (fun w => (Ok tt, log_write (path_join REPORTS_DIR (jid ^^ "_report.json")) w)) ;;;
         ret report) w
    end.

(** A dict without one key. *)
Definition without_key (k : string) (fields : list (string * json))
  : list (string * json) :=
  filter (fun kv => negb (String.eqb (fst kv) k)) fields.

(** ** A message delivered more than once

    A broker that delivers at least once may hand a worker the message of a
    job a second time, whatever has become of the job.  The worker runs the
    same code: it loads the row as it is and marks it ongoing
    ([step_again_begin]), then scans and saves as any worker in flight. *)

Inductive step_again (s : system) : system -> Prop :=
| step_again_step s' :
    step s s' ->
    step_again s s'
| step_again_begin (E : env) (jid : string) job r w' :
    query_first jid (db (sys_world s)) = Some job ->
    mark_ongoing E job (sys_world s) = (Ok r, w') ->
    step_again s (mkSystem w' ((r, extracted_path jid) :: inflight s)).

Inductive reachable_again : system -> Prop :=
| reach_again_init w :
    db w = [] -> queue w = [] -> reachable_again (mkSystem w [])
| reach_again_step s s' :
    reachable_again s -> step_again s s' -> reachable_again s'.

(** The sample system when the message of the completed job has been handed
    to a worker once more and the worker has marked the job. *)
Definition sample_begun_again : system :=
  mkSystem
    (snd (mark_ongoing (sample_env false tools_report)
                       (first_row (after_task tools_report))
                       (after_task tools_report)))
    [(set_updated_at (Some 1005%Z)
                     (set_status "ongoing" (first_row (after_task tools_report))),
      extracted_path "job-0")].

(** * Properties *)

(** ** Adapters and aggregator *)

Section Scanner.

Variable E : env.

Lemma run_completed argv rc out w :
  subprocess_run E argv = CompletedProcess rc out ->
  run E argv w = (Ok (rc, out), log_call argv w).
Proof. intros H. unfold run. now rewrite H. Qed.

Lemma run_failed argv e w :
  subprocess_run E argv = LaunchError e ->
  run E argv w = (Raise e, log_call argv w).
Proof. intros H. unfold run. now rewrite H. Qed.

Lemma run_bandit_completed p w :
  launches E ->
  exists v, run_bandit E p w = (Ok v, log_call (bandit_argv E p) w) /\
            entry_of E (bandit_argv E p)
                     (JObj [("error", JStr "Bandit scan failed")]) v.
Proof.
  intros L. destruct (L (bandit_argv E p)) as (rc & out & H).
  unfold run_bandit, bind. rewrite (run_completed _ _ _ _ H). cbn [snd].
  destruct (json_loads E out) as [d|] eqn:D; eexists; (split; [reflexivity|]);
    exists rc, out; rewrite D; auto.
Qed.

Lemma run_semgrep_completed p w :
  launches E ->
  exists v, run_semgrep E p w = (Ok v, log_call (semgrep_argv E p) w) /\
            entry_of E (semgrep_argv E p)
                     (JObj [("error", JStr "Semgrep scan failed")]) v.
Proof.
  intros L. destruct (L (semgrep_argv E p)) as (rc & out & H).
  unfold run_semgrep, bind. rewrite (run_completed _ _ _ _ H). cbn [snd].
  destruct (json_loads E out) as [d|] eqn:D; eexists; (split; [reflexivity|]);
    exists rc, out; rewrite D; auto.
Qed.

Lemma run_pip_audit_no_manifest p w :
  path_exists E (path_join p "requirements.txt") = false ->
  run_pip_audit E p w = (Ok no_manifest_result, w).
Proof. intros H. unfold run_pip_audit. now rewrite H. Qed.

Lemma run_pip_audit_completed p w :
  launches E ->
  path_exists E (path_join p "requirements.txt") = true ->
  exists v,
    run_pip_audit E p w
    = (Ok v, log_call (pip_audit_argv E (path_join p "requirements.txt")) w) /\
    entry_of E (pip_audit_argv E (path_join p "requirements.txt"))
             (JObj [("error", JStr "pip-audit failed")]) v.
Proof.
  intros L X.
  destruct (L (pip_audit_argv E (path_join p "requirements.txt")))
    as (rc & out & H).
  unfold run_pip_audit, bind. rewrite X. cbn [negb].
  rewrite (run_completed _ _ _ _ H). cbn [snd].
  destruct (json_loads E out) as [d|] eqn:D; eexists; (split; [reflexivity|]);
    exists rc, out; rewrite D; auto.
Qed.

Lemma pylint_loop_completed :
  launches E ->
  forall files acc w,
  exists l w',
    pylint_loop E files acc w = (Ok (acc ++ l), w') /\
    Forall2 (pylint_entry E) files l.
Proof.
  intros L files. induction files as [|f rest IH]; intros acc w.
  - exists [], w. cbn. rewrite app_nil_r. split; [reflexivity | constructor].
  - destruct (L (pylint_argv E f)) as (rc & out & H).
    cbn [pylint_loop]. unfold bind. rewrite (run_completed _ _ _ _ H). cbn [snd].
    destruct (json_loads E out) as [d|] eqn:D.
    + destruct (IH (acc ++ [d]) (log_call (pylint_argv E f) w))
        as (l & w' & Hl & F).
      exists (d :: l), w'. rewrite Hl, <- app_assoc. split; [reflexivity|].
      constructor; [|exact F]. exists rc, out. rewrite D. auto.
    + destruct (IH (acc ++ [JObj [("file", JStr f);
                                   ("error", JStr "pylint failed")]])
                   (log_call (pylint_argv E f) w)) as (l & w' & Hl & F).
      eexists (_ :: l), w'. rewrite Hl, <- app_assoc. split; [reflexivity|].
      constructor; [|exact F]. exists rc, out. rewrite D. auto.
Qed.

Lemma only_calls_refl w : only_calls w w.
Proof. repeat split. Qed.

Lemma only_calls_trans w1 w2 w3 :
  only_calls w1 w2 -> only_calls w2 w3 -> only_calls w1 w3.
Proof.
  unfold only_calls. intros (a & b & c & d & e) (a' & b' & c' & d' & e').
  repeat split; congruence.
Qed.

Lemma run_frame argv w r w' : run E argv w = (r, w') -> only_calls w w'.
Proof.
  unfold run. destruct (subprocess_run E argv); intros H; inversion H;
    repeat split.
Qed.

Lemma run_value argv w1 w2 : fst (run E argv w1) = fst (run E argv w2).
Proof. unfold run. now destruct (subprocess_run E argv). Qed.

Lemma run_bandit_frame p w r w' :
  run_bandit E p w = (r, w') -> only_calls w w'.
Proof.
  unfold run_bandit, bind, ret.
  destruct (run E (bandit_argv E p) w) as [[[rc out]|e] w1] eqn:R; cbn [snd];
    [destruct (json_loads E out)|]; intros H; inversion H; subst;
    eapply run_frame; eauto.
Qed.

Lemma run_semgrep_frame p w r w' :
  run_semgrep E p w = (r, w') -> only_calls w w'.
Proof.
  unfold run_semgrep, bind, ret.
  destruct (run E (semgrep_argv E p) w) as [[[rc out]|e] w1] eqn:R; cbn [snd];
    [destruct (json_loads E out)|]; intros H; inversion H; subst;
    eapply run_frame; eauto.
Qed.

Lemma run_pip_audit_frame p w r w' :
  run_pip_audit E p w = (r, w') -> only_calls w w'.
Proof.
  unfold run_pip_audit, bind, ret.
  destruct (negb (path_exists E (path_join p "requirements.txt"))).
  - intros H; inversion H; apply only_calls_refl.
  - destruct (run E _ w) as [[[rc out]|e] w1] eqn:R; cbn [snd];
      [destruct (json_loads E out)|]; intros H; inversion H; subst;
      eapply run_frame; eauto.
Qed.

Lemma pylint_loop_frame files :
  forall acc w r w', pylint_loop E files acc w = (r, w') -> only_calls w w'.
Proof.
  induction files as [|f rest IH]; intros acc w r w'; cbn [pylint_loop].
  - unfold ret. intros H; inversion H; apply only_calls_refl.
  - unfold bind.
    destruct (run E (pylint_argv E f) w) as [[[rc out]|e] w1] eqn:R; cbn [snd].
    + apply run_frame in R.
      destruct (json_loads E out); intros H; apply IH in H;
        eapply only_calls_trans; eauto.
    + intros H; inversion H; subst. eapply run_frame; eauto.
Qed.

Lemma run_pylint_frame p w r w' :
  run_pylint E p w = (r, w') -> only_calls w w'.
Proof.
  unfold run_pylint, bind, ret.
  destruct (pylint_loop E (rglob_py E p) [] w) as [[l|e] w1] eqn:R;
    intros H; inversion H; subst; eapply pylint_loop_frame; eauto.
Qed.

Lemma run_pylint_ok p w v w' :
  run_pylint E p w = (Ok v, w') -> exists l, v = JArr l.
Proof.
  unfold run_pylint, bind, ret.
  destruct (pylint_loop E (rglob_py E p) [] w) as [[l|e] w1];
    intros H; inversion H; eauto.
Qed.

(** The aggregator reads and writes neither the job table nor the queue. *)
Lemma scan_project_frame p w r w' :
  scan_project E p w = (r, w') -> only_calls w w'.
Proof.
  unfold scan_project, bind, ret.
  destruct (run_bandit E p w) as [[b|e] w1] eqn:B; apply run_bandit_frame in B;
    [|intros H; inversion H; subst; exact B].
  destruct (run_semgrep E p w1) as [[s|e] w2] eqn:S;
    apply run_semgrep_frame in S;
    [|intros H; inversion H; subst; eapply only_calls_trans; eauto].
  destruct (run_pip_audit E p w2) as [[d|e] w3] eqn:D;
    apply run_pip_audit_frame in D;
    [|intros H; inversion H; subst;
      apply (only_calls_trans _ _ _ B), (only_calls_trans _ _ _ S); exact D].
  destruct (run_pylint E p w3) as [[l|e] w4] eqn:P;
    apply run_pylint_frame in P;
    intros H; inversion H; subst;
    apply (only_calls_trans _ _ _ B), (only_calls_trans _ _ _ S),
          (only_calls_trans _ _ _ D); exact P.
Qed.

(** Whenever the aggregator returns, it returns its four-entry document. *)
Lemma scan_project_ok p w doc w' :
  scan_project E p w = (Ok doc, w') ->
  exists b s d l, doc = scan_document b s d (JArr l).
Proof.
  unfold scan_project, bind, ret.
  destruct (run_bandit E p w) as [[b|e] w1]; [|discriminate].
  destruct (run_semgrep E p w1) as [[s|e] w2]; [|discriminate].
  destruct (run_pip_audit E p w2) as [[d|e] w3]; [|discriminate].
  destruct (run_pylint E p w3) as [[l|e] w4] eqn:P; [|discriminate].
  apply run_pylint_ok in P. destruct P as (l' & ->).
  intros H; inversion H. exists b, s, d, l'. reflexivity.
Qed.

End Scanner.

(** C1 (as amended).  When every tool process starts, each adapter turns
    output that does not parse into its failure entry and passes parsed
    output on whatever the exit code, and [scan_project] returns all four
    entries, each made from its own tool's output alone. *)
Theorem adapters_isolate_unparsable_output (E : env) (p : string) (w : world) :
  launches E ->
  exists b s d l w',
    scan_project E p w = (Ok (scan_document b s d (JArr l)), w') /\
    entry_of E (bandit_argv E p) (JObj [("error", JStr "Bandit scan failed")]) b /\
    entry_of E (semgrep_argv E p) (JObj [("error", JStr "Semgrep scan failed")]) s /\
    (if path_exists E (path_join p "requirements.txt")
     then entry_of E (pip_audit_argv E (path_join p "requirements.txt"))
                   (JObj [("error", JStr "pip-audit failed")]) d
     else d = no_manifest_result) /\
    Forall2 (pylint_entry E) (rglob_py E p) l.
Proof.
  intros L.
  destruct (run_bandit_completed E p w L) as (b & Hb & Eb).
  destruct (run_semgrep_completed E p (log_call (bandit_argv E p) w) L)
    as (s & Hs & Es).
  unfold scan_project, bind. rewrite Hb, Hs.
  destruct (path_exists E (path_join p "requirements.txt")) eqn:X.
  - destruct (run_pip_audit_completed E p
                (log_call (semgrep_argv E p) (log_call (bandit_argv E p) w)) L X)
      as (d & Hd & Ed).
    rewrite Hd. unfold run_pylint, bind.
    destruct (pylint_loop_completed E L (rglob_py E p) [] 
                (log_call (pip_audit_argv E (path_join p "requirements.txt"))
                   (log_call (semgrep_argv E p) (log_call (bandit_argv E p) w))))
      as (l & w' & Hl & F).
    rewrite Hl. cbn [app]. exists b, s, d, l, w'. repeat split; auto.
  - rewrite (run_pip_audit_no_manifest E p _ X). unfold run_pylint, bind.
    destruct (pylint_loop_completed E L (rglob_py E p) []
                (log_call (semgrep_argv E p) (log_call (bandit_argv E p) w)))
      as (l & w' & Hl & F).
    rewrite Hl. cbn [app]. exists b, s, no_manifest_result, l, w'.
    repeat split; auto.
Qed.

Lemma tools_report_launches (manifest : bool) :
  launches (sample_env manifest tools_report).
Proof.
  intros argv. cbn [subprocess_run sample_env]. unfold tools_report.
  repeat match goal with |- context [if ?c then _ else _] => destruct c end;
    eauto.
Qed.

Lemma adapters_isolate_unparsable_output_witness :
  launches (sample_env true tools_report) /\
  exists b s d l w',
    scan_project (sample_env true tools_report) "uploads/job-0_extracted"
                 empty_world
    = (Ok (scan_document b s d (JArr l)), w') /\
    entry_of (sample_env true tools_report)
             (bandit_argv (sample_env true tools_report) "uploads/job-0_extracted")
             (JObj [("error", JStr "Bandit scan failed")]) b /\
    entry_of (sample_env true tools_report)
             (semgrep_argv (sample_env true tools_report) "uploads/job-0_extracted")
             (JObj [("error", JStr "Semgrep scan failed")]) s /\
    (if path_exists (sample_env true tools_report)
                    (path_join "uploads/job-0_extracted" "requirements.txt")
     then entry_of (sample_env true tools_report)
                   (pip_audit_argv (sample_env true tools_report)
                      (path_join "uploads/job-0_extracted" "requirements.txt"))
                   (JObj [("error", JStr "pip-audit failed")]) d
     else d = no_manifest_result) /\
    Forall2 (pylint_entry (sample_env true tools_report))
            (rglob_py (sample_env true tools_report) "uploads/job-0_extracted") l.
Proof.
  split.
  - apply tools_report_launches.
  - apply (adapters_isolate_unparsable_output
             (sample_env true tools_report) "uploads/job-0_extracted"
             empty_world).
    apply tools_report_launches.
Defined.

(** C1 (as stated) fails: bandit exits with 1 and pip-audit exits with 1,
    both with output that parses, and each adapter returns the decoded output,
    not a failure entry; pylint's unparsable output becomes an item of its
    list, not a failure value of the adapter. *)
Lemma nonzero_exit_is_passed_on :
  subprocess_run (sample_env true tools_report)
                 (bandit_argv (sample_env true tools_report) "proj")
  = CompletedProcess 1 (json_dumps three_medium) /\
  fst (run_bandit (sample_env true tools_report) "proj" empty_world)
  = Ok three_medium /\
  assoc "error" [("errors", JArr []);
                 ("results", JArr [medium_issue; medium_issue; medium_issue])]
  = None /\
  fst (run_pip_audit (sample_env true tools_report) "proj" empty_world)
  = Ok audit_report /\
  fst (run_pylint (sample_env true tools_report) "proj" empty_world)
  = Ok (JArr [JObj [("file", JStr "proj/manage.py");
                    ("error", JStr "pylint failed")]]).
Proof. repeat split; vm_compute; reflexivity. Qed.

(** C6.  Without [requirements.txt] in the project root the dependency
    audit launches no process and returns its zero-vulnerability result,
    which has no [error] entry. *)
Theorem pip_audit_without_manifest (E : env) (p : string) (w : world) :
  path_exists E (path_join p "requirements.txt") = false ->
  run_pip_audit E p w
  = (Ok (JObj [("vulnerabilities_found", JInt 0); ("details", JArr [])]), w) /\
  calls (snd (run_pip_audit E p w)) = calls w /\
  py_get no_manifest_result "error" JNull = Ok JNull.
Proof.
  intros H. rewrite (run_pip_audit_no_manifest E p w H).
  repeat split.
Qed.

Lemma pip_audit_without_manifest_witness :
  path_exists (sample_env false tools_report)
              (path_join "uploads/job-0_extracted" "requirements.txt") = false /\
  run_pip_audit (sample_env false tools_report) "uploads/job-0_extracted"
                empty_world
  = (Ok (JObj [("vulnerabilities_found", JInt 0); ("details", JArr [])]),
     empty_world).
Proof.
  split; [reflexivity|].
  apply (pip_audit_without_manifest (sample_env false tools_report)
           "uploads/job-0_extracted" empty_world).
  reflexivity.
Defined.

(** C9 at its failing input: with the bandit executable missing the launch
    itself raises outside the adapter's [try], and [scan_project] raises
    instead of returning its document. *)
Theorem scan_project_raises_without_bandit :
  scan_project (sample_env false bandit_missing) "uploads/job-0_extracted"
               empty_world
  = (Raise (Exn "FileNotFoundError"
                "[Errno 2] No such file or directory: '/opt/conda/bin/bandit'"),
     log_call (bandit_argv (sample_env false bandit_missing)
                           "uploads/job-0_extracted") empty_world).
Proof. vm_compute. reflexivity. Qed.

(** ** Upload *)

Lemma upload_project_rejects (E : env) (file_name : option string) (w : world) :
  accepted_filename file_name = false ->
  exists msg,
    upload_project E file_name w = (Raise (Exn "ValueError" msg), w) /\
    (msg = "No filename provided" \/ msg = "File must be a ZIP file").
Proof.
  unfold accepted_filename, upload_project, try_except, raise.
  destruct file_name as [name|]; [|intros _; eexists; split; eauto].
  destruct (String.eqb name "") eqn:N; cbn [negb andb].
  - intros _. eexists; split; eauto.
  - intros Z. rewrite Z. cbn [negb]. eexists; split; eauto.
Qed.

(** What an upload does to table and queue: nothing, or one new pending row
    under an unused [job_id] together with one message for it. *)
Lemma upload_project_effect (E : env) (file_name : option string) w r w' :
  upload_project E file_name w = (r, w') ->
  (db w' = db w /\ queue w' = queue w) \/
  (exists name jid created updated path,
      db w' = db w ++ [mkJob (next_id (db w)) jid name "pending" None
                             (Some (json_dumps (JObj [])))
                             (Some created) (Some updated) None] /\
      queue w' = queue w ++ [(jid, path)] /\
      existsb (fun r => String.eqb (job_id r) jid) (db w) = false).
Proof.
  unfold upload_project, try_except, raise.
  destruct file_name as [name|];
    [|intros H; inversion H; subst; left; split; reflexivity].
  destruct (String.eqb name "");
    [intros H; inversion H; subst; left; split; reflexivity|].
  destruct (negb (endswith name ".zip"));
    [intros H; inversion H; subst; left; split; reflexivity|].
  unfold bind, uuid4, save_upload, extract_zip, utcnow, add_and_commit, delay,
    ret.
  destruct (extractall E _ _);
    [intros H; inversion H; subst; left; split; reflexivity|].
  cbn [db queue tick log_write draw job_id].
  destruct (existsb _ (db w)) eqn:X;
    [intros H; inversion H; subst; left; split; reflexivity|].
  intros H; inversion H; subst. right.
  cbn [db queue set_db set_queue filename status summary result created_at
       updated_at completed_at].
  do 5 eexists. split; [reflexivity|]. split; [reflexivity|]. exact X.
Qed.




(** ** The job table *)

Lemma in_flush (j : Job) (rows : list Job) (x : Job) :
  In x (flush j rows) -> x = j \/ (In x rows /\ id x <> id j).
Proof.
  unfold flush. rewrite in_map_iff. intros (r & H & I).
  destruct (Z.eqb_spec (id r) (id j)); subst; auto.
Qed.

Lemma flush_keeps (j : Job) (rows : list Job) (x : Job) :
  In x rows -> id x <> id j -> In x (flush j rows).
Proof.
  intros I N. unfold flush. apply in_map_iff. exists x. split; [|exact I].
  destruct (Z.eqb_spec (id x) (id j)); [contradiction | reflexivity].
Qed.

Lemma flush_in (j old : Job) (rows : list Job) :
  In old rows -> id old = id j -> In j (flush j rows).
Proof.
  intros I H. unfold flush. apply in_map_iff. exists old. split; [|exact I].
  rewrite H, Z.eqb_refl. reflexivity.
Qed.

Lemma map_id_flush (j : Job) (rows : list Job) :
  map id (flush j rows) = map id rows.
Proof.
  unfold flush. rewrite map_map. apply map_ext_in. intros r _.
  destruct (Z.eqb_spec (id r) (id j)); congruence.
Qed.

Lemma map_job_id_flush (j : Job) (rows : list Job) :
  (forall r, In r rows -> id r = id j -> job_id r = job_id j) ->
  map job_id (flush j rows) = map job_id rows.
Proof.
  intros H. unfold flush. rewrite map_map. apply map_ext_in. intros r I.
  destruct (Z.eqb_spec (id r) (id j)); [symmetry; auto | reflexivity].
Qed.

Lemma nodup_map_inj {A B : Type} (f : A -> B) (l : list A) (x y : A) :
  NoDup (map f l) -> In x l -> In y l -> f x = f y -> x = y.
Proof.
  induction l as [|a l IH]; cbn [map]; [intros _ []|].
  intros N [->|Ix] [->|Iy] H; auto.
  - inversion N; subst. exfalso. apply H2. rewrite H. now apply in_map.
  - inversion N; subst. exfalso. apply H2. rewrite <- H. now apply in_map.
  - inversion N; subst. auto.
Qed.

Lemma query_first_in (jid : string) (rows : list Job) (j : Job) :
  query_first jid rows = Some j -> In j rows /\ job_id j = jid.
Proof.
  unfold query_first. intros H. apply find_some in H. destruct H as (I & H).
  split; [exact I|]. now apply String.eqb_eq.
Qed.

Lemma query_first_none (jid : string) (rows : list Job) (j : Job) :
  query_first jid rows = None -> In j rows -> job_id j <> jid.
Proof.
  unfold query_first. intros H I Heq.
  apply (find_none _ _ H) in I. apply String.eqb_neq in I. contradiction.
Qed.

Lemma id_le_max (rows : list Job) (r : Job) :
  In r rows -> (id r <= fold_right Z.max 0 (map id rows))%Z.
Proof.
  induction rows as [|a rows IH]; [intros []|].
  cbn [map fold_right]. intros [->|I]; [lia|]. specialize (IH I). lia.
Qed.

Lemma next_id_fresh (rows : list Job) : ~ In (next_id rows) (map id rows).
Proof.
  rewrite in_map_iff. intros (r & H & I). apply id_le_max in I.
  unfold next_id in H. lia.
Qed.

Lemma unused_job_id (jid : string) (rows : list Job) :
  existsb (fun r => String.eqb (job_id r) jid) rows = false ->
  ~ In jid (map job_id rows).
Proof.
  intros X. rewrite in_map_iff. intros (r & H & I).
  assert (existsb (fun r => String.eqb (job_id r) jid) rows = true).
  { apply existsb_exists. exists r. split; [exact I|]. now apply String.eqb_eq. }
  congruence.
Qed.

(** After a flush of the loaded row, the query by [job_id] finds the
    flushed object. *)
Lemma query_first_flush (jid : string) (rows : list Job) (old j : Job) :
  query_first jid rows = Some old ->
  id j = id old -> job_id j = job_id old ->
  query_first jid (flush j rows) = Some j.
Proof.
  unfold query_first, flush. intros Q Hid Hjid.
  induction rows as [|r rows IH]; [discriminate|].
  cbn [find map] in *.
  destruct (String.eqb (job_id r) jid) eqn:K.
  - inversion Q; subst r. rewrite Hid, Z.eqb_refl, Hjid, K. reflexivity.
  - destruct (Z.eqb (id r) (id j)) eqn:I.
    + apply find_some in Q. destruct Q as (_ & Q). rewrite Hjid, Q. reflexivity.
    + rewrite K. auto.
Qed.

(** ** The executor *)

Ltac fields :=
  cbn [id job_id filename status summary result created_at updated_at
       completed_at set_status set_summary set_result set_updated_at
       set_completed_at] in *.

Lemma mark_ongoing_effect (E : env) (job : Job) (w : world) :
  mark_ongoing E job w
  = (Ok (set_updated_at (Some (utcnow_at E (clock_reads w)))
                        (set_status "ongoing" job)),
     set_db (flush (set_updated_at (Some (utcnow_at E (clock_reads w)))
                                   (set_status "ongoing" job)) (db w))
            (tick w)).
Proof. reflexivity. Qed.

Lemma save_failure_effect (E : env) (job : Job) (e : exn) (w : world) :
  save_failure E job e w
  = (Ok tt,
     set_db (flush (set_updated_at (Some (utcnow_at E (clock_reads w)))
                      (set_result
                         (Some (json_dumps (JObj [("error", JStr (exn_msg e));
                                                  ("trace", JStr (format_exc E e))])))
                         (set_status "failed" job))) (db w))
            (tick w)).
Proof. reflexivity. Qed.

Lemma save_result_effect (E : env) (job : Job) (b s d l : json) (w : world) :
  save_result E job (scan_document b s d l) w
  = (Ok tt,
     set_db (flush (set_updated_at (Some (utcnow_at E (S (clock_reads w))))
                      (set_completed_at (Some (utcnow_at E (clock_reads w)))
                         (set_summary (Some "Scan finished with 0 issues")
                            (set_result
                               (Some (json_dumps (scan_document b s d l)))
                               (set_status "completed" job))))) (db w))
            (tick (tick w))).
Proof. reflexivity. Qed.

(** The second phase of a task: one flush of the loaded row, either as
    completed or as failed. *)
Lemma scan_and_save_effect (E : env) (job : Job) (p : string) w r w' :
  scan_and_save E job p w = (r, w') ->
  queue w' = queue w /\
  exists job',
    db w' = flush job' (db w) /\
    id job' = id job /\ job_id job' = job_id job /\
    filename job' = filename job /\ created_at job' = created_at job /\
    ((completed_shape job' /\
      exists doc w1, scan_project E p w = (Ok doc, w1)) \/
     (status job' = "failed" /\
      (exists e w1,
          scan_project E p w = (Raise e, w1) /\
          result job'
          = Some (json_dumps (JObj [("error", JStr (exn_msg e));
                                    ("trace", JStr (format_exc E e))]))) /\
      summary job' = summary job /\ completed_at job' = completed_at job)).
Proof.
  unfold scan_and_save, try_except, bind.
  destruct (scan_project E p w) as [[doc|e] w1] eqn:S.
  - destruct (scan_project_frame E p w _ _ S) as (Hd & Hq & _).
    destruct (scan_project_ok E p w doc w1 S) as (b & s & d & l & ->).
    rewrite save_result_effect. intros H; apply pair_equal_spec in H.
    destruct H as [<- <-].
    cbn [queue db set_db tick]. split; [exact Hq|].
    eexists. rewrite Hd. split; [reflexivity|].
    unfold completed_shape. fields. repeat split.
    left. repeat split; eauto.
  - destruct (scan_project_frame E p w _ _ S) as (Hd & Hq & _).
    rewrite save_failure_effect. intros H; apply pair_equal_spec in H.
    destruct H as [<- <-].
    cbn [queue db set_db tick]. split; [exact Hq|].
    eexists. rewrite Hd. split; [reflexivity|].
    fields. repeat split.
    right. repeat split; eauto.
Qed.

(** C10.  When the scan raises after the job was found, the task leaves the
    job failed with the error document and a new [updated_at], and with the
    [id], [job_id], [filename], [summary], [created_at] and [completed_at]
    it was found with. *)
Theorem failure_path_keeps_other_fields
        (E : env) (jid p : string) (w : world) (job : Job) (e : exn) :
  query_first jid (db w) = Some job ->
  fst (scan_project E p (snd (mark_ongoing E job w))) = Raise e ->
  exists job',
    query_first jid (db (snd (run_scan_task E jid p w))) = Some job' /\
    status job' = "failed" /\
    result job' = Some (json_dumps (JObj [("error", JStr (exn_msg e));
                                          ("trace", JStr (format_exc E e))])) /\
    id job' = id job /\
    job_id job' = job_id job /\
    filename job' = filename job /\
    summary job' = summary job /\
    created_at job' = created_at job /\
    completed_at job' = completed_at job.
Proof.
  intros Q S. unfold run_scan_task. rewrite Q. unfold bind at 1.
  rewrite mark_ongoing_effect in *. cbn [snd] in S.
  unfold scan_and_save, try_except, bind.
  destruct (scan_project E p _) as [[doc|e'] w1] eqn:R; cbn [fst] in S;
    [discriminate|]. inversion S; subst e'.
  destruct (scan_project_frame E p _ _ _ R) as (Hd & _).
  rewrite save_failure_effect. cbn [snd db set_db tick] in *. rewrite Hd.
  eexists. split.
  - eapply query_first_flush; [eapply query_first_flush; [exact Q| |]| |];
      reflexivity.
  - fields. repeat split.
Qed.

(** ** The invariant of the running system *)

Lemma NoDup_snoc {A : Type} (l : list A) (x : A) :
  NoDup l -> ~ In x l -> NoDup (l ++ [x]).
Proof.
  induction l as [|a l IH]; cbn [app]; intros N I.
  - constructor; [intros []|constructor].
  - inversion N; subst. constructor.
    + rewrite in_app_iff. intros [H|[H|[]]]; [contradiction|].
      apply I. left. auto.
    + apply IH; [assumption|]. intros H. apply I. right. exact H.
Qed.

Lemma NoDup_map_remove {A B : Type} (f : A -> B) (l1 l2 : list A) (x : A) :
  NoDup (map f (l1 ++ x :: l2)) ->
  NoDup (map f (l1 ++ l2)) /\ ~ In (f x) (map f (l1 ++ l2)).
Proof.
  rewrite !map_app. cbn [map]. intros N. split.
  - eapply NoDup_remove_1; eauto.
  - eapply NoDup_remove_2; eauto.
Qed.

Lemma in_remove {A : Type} (l1 l2 : list A) (x y : A) :
  In y (l1 ++ l2) -> In y (l1 ++ x :: l2).
Proof. rewrite !in_app_iff. cbn [In]. tauto. Qed.

Lemma pending_not_ongoing (j : Job) : pending_shape j -> ongoing_shape j -> False.
Proof. intros (P & _) (O & _). rewrite P in O. discriminate. Qed.

Lemma get_job_frame (E : env) (jid : string) w r w' :
  get_job E jid w = (r, w') -> w' = w.
Proof.
  unfold get_job. destruct (query_first jid (db w)) as [job|];
    [destruct (result job) as [text|]; [destruct (json_loads E text)|]|];
    intros H; inversion H; reflexivity.
Qed.

Lemma invariant_init (w : world) :
  db w = [] -> queue w = [] -> invariant (mkSystem w []).
Proof.
  intros D Q. constructor; cbn [sys_world inflight]; rewrite ?D, ?Q;
    cbn [map]; try apply NoDup_nil; intros ? [].
Qed.

Lemma invariant_same (s s' : system) :
  db (sys_world s') = db (sys_world s) ->
  queue (sys_world s') = queue (sys_world s) ->
  inflight s' = inflight s ->
  invariant s -> invariant s'.
Proof.
  intros D Q I []. constructor; rewrite ?D, ?Q, ?I; assumption.
Qed.

Lemma invariant_upload (s : system) (E : env) file_name r w' :
  invariant s ->
  upload_project E file_name (sys_world s) = (r, w') ->
  invariant (mkSystem w' (inflight s)).
Proof.
  intros Inv U. apply upload_project_effect in U.
  destruct U as [(D & Q)|(name & jid & created & updated & path & D & Q & X)].
  - eapply invariant_same; eauto.
  - destruct Inv as [Njid Nid Nq Ninf Hq Hrun Hrows].
    apply unused_job_id in X.
    assert (P : pending_shape
                  (mkJob (next_id (db (sys_world s))) jid name "pending" None
                         (Some (json_dumps (JObj []))) (Some created)
                         (Some updated) None)) by (repeat split).
    constructor; cbn [sys_world inflight]; rewrite ?D, ?Q.
    + rewrite map_app. apply NoDup_snoc; assumption.
    + rewrite map_app. apply NoDup_snoc; [assumption | apply next_id_fresh].
    + rewrite map_app. apply NoDup_snoc; [assumption|]. cbn [map fst].
      rewrite in_map_iff. intros (t & Ht & It).
      destruct (Hq t It) as (j & Ij & Hj & _). apply X.
      rewrite <- Ht, <- Hj. now apply in_map.
    + assumption.
    + intros t It. apply in_app_iff in It. destruct It as [It|[<-|[]]].
      * destruct (Hq t It) as (j & Ij & Hj & Pj). exists j.
        rewrite in_app_iff. auto.
      * eexists. split; [apply in_app_iff; right; left; reflexivity|].
        split; [reflexivity | exact P].
    + intros e Ie. destruct (Hrun e Ie) as (Ij & O). rewrite in_app_iff. auto.
    + intros j Ij. apply in_app_iff in Ij. destruct Ij as [Ij|[<-|[]]].
      * auto.
      * left. exact P.
Qed.

Lemma invariant_discard (s : system) q1 q2 t :
  invariant s ->
  queue (sys_world s) = q1 ++ t :: q2 ->
  invariant (mkSystem (set_queue (q1 ++ q2) (sys_world s)) (inflight s)).
Proof.
  intros [Njid Nid Nq Ninf Hq Hrun Hrows] Q. rewrite Q in Nq.
  constructor; cbn [sys_world inflight set_queue db queue]; auto.
  - apply (NoDup_map_remove fst q1 q2 t Nq).
  - intros t' I. apply Hq. rewrite Q. now apply in_remove.
Qed.

Lemma invariant_begin (s : system) (E : env) q1 q2 t job r w' :
  invariant s ->
  queue (sys_world s) = q1 ++ t :: q2 ->
  query_first (fst t) (db (sys_world s)) = Some job ->
  mark_ongoing E job (set_queue (q1 ++ q2) (sys_world s)) = (Ok r, w') ->
  invariant (mkSystem w' ((r, snd t) :: inflight s)).
Proof.
  intros [Njid Nid Nq Ninf Hq Hrun Hrows] Q F M.
  rewrite mark_ongoing_effect in M. apply pair_equal_spec in M.
  destruct M as [M <-]. injection M as <-.
  apply query_first_in in F. destruct F as (Ijob & Hjob).
  assert (P : pending_shape job).
  { destruct (Hq t) as (j & Ij & Hj & Pj).
    - rewrite Q. apply in_elt.
    - replace job with j; [exact Pj|].
      apply (nodup_map_inj job_id _ _ _ Njid Ij Ijob). congruence. }
  rewrite Q in Nq. destruct (NoDup_map_remove fst q1 q2 t Nq) as (Nq' & Nt).
  set (r := set_updated_at _ (set_status "ongoing" job)).
  assert (O : ongoing_shape r) by (destruct P as (_ & ? & ? & ?); repeat split; assumption).
  assert (Same : forall x, In x (db (sys_world s)) -> id x = id r -> x = job).
  { intros x Ix Hx. apply (nodup_map_inj id _ _ _ Nid Ix Ijob). exact Hx. }
  constructor;
    cbn [sys_world inflight set_queue set_db tick db queue map fst].
  - rewrite map_job_id_flush; [assumption|].
    intros x Ix Hx. rewrite (Same x Ix Hx). reflexivity.
  - rewrite map_id_flush. assumption.
  - assumption.
  - constructor; [|assumption]. rewrite in_map_iff. intros (e & He & Ie).
    destruct (Hrun e Ie) as (Ij & Oe).
    rewrite (Same _ Ij He) in Oe. exact (pending_not_ongoing _ P Oe).
  - intros t' I. destruct (Hq t') as (j & Ij & Hj & Pj).
    { rewrite Q. now apply in_remove. }
    exists j. split; [|split; assumption].
    apply flush_keeps; [assumption|]. intros Hx. apply Nt.
    rewrite <- Hjob, <- (Same j Ij Hx), Hj. now apply in_map.
  - intros e [<-|Ie]; cbn [fst].
    + split; [|exact O]. now apply (flush_in r job).
    + destruct (Hrun e Ie) as (Ij & Oe). split; [|exact Oe].
      apply flush_keeps; [assumption|]. intros Hx.
      rewrite (Same _ Ij Hx) in Oe. exact (pending_not_ongoing _ P Oe).
  - intros x Ix. apply in_flush in Ix. destruct Ix as [->|(Ix & _)]; auto.
    right. left. exact O.
Qed.

Lemma invariant_finish (s : system) (E : env) i1 i2 job path r w' :
  invariant s ->
  inflight s = i1 ++ (job, path) :: i2 ->
  scan_and_save E job path (sys_world s) = (r, w') ->
  invariant (mkSystem w' (i1 ++ i2)).
Proof.
  intros [Njid Nid Nq Ninf Hq Hrun Hrows] I S.
  apply scan_and_save_effect in S.
  destruct S as (Q & job' & D & Hid & Hjid & _ & _ & Shape).
  destruct (Hrun (job, path)) as (Ijob & O); [rewrite I; apply in_elt|].
  cbn [fst] in Ijob, O.
  assert (Sh : lifecycle_shape job').
  { destruct Shape as [(C & _)|(St & (e & w1 & _ & R) & Su & Co)].
    - right. right. left. exact C.
    - right. right. right. destruct O as (_ & _ & Os & Oc).
      repeat split; eauto; congruence. }
  assert (Same : forall x, In x (db (sys_world s)) -> id x = id job' -> x = job).
  { intros x Ix Hx. apply (nodup_map_inj id _ _ _ Nid Ix Ijob). congruence. }
  rewrite I in Ninf.
  destruct (NoDup_map_remove (fun e => id (fst e)) i1 i2 (job, path) Ninf)
    as (Ninf' & Nj).
  constructor; cbn [sys_world inflight]; rewrite ?D, ?Q.
  - rewrite map_job_id_flush; [assumption|].
    intros x Ix Hx. rewrite (Same x Ix Hx). auto.
  - rewrite map_id_flush. assumption.
  - assumption.
  - assumption.
  - intros t It. destruct (Hq t It) as (j & Ij & Hj & Pj).
    exists j. split; [|split; assumption].
    apply flush_keeps; [assumption|]. intros Hx.
    rewrite (Same j Ij Hx) in Pj. exact (pending_not_ongoing _ Pj O).
  - intros e Ie. destruct (Hrun e) as (Ij & Oe).
    { rewrite I. now apply in_remove. }
    split; [|exact Oe]. apply flush_keeps; [assumption|]. intros Hx.
    apply Nj. cbn [fst]. rewrite <- (Same _ Ij Hx).
    apply (in_map (fun e => id (fst e))). exact Ie.
  - intros x Ix. apply in_flush in Ix. destruct Ix as [->|(Ix & _)]; auto.
Qed.

Lemma invariant_step (s s' : system) : invariant s -> step s s' -> invariant s'.
Proof.
  intros Inv St. destruct St.
  - eapply invariant_upload; eauto.
  - apply get_job_frame in H. subst w'. now destruct s.
  - eapply invariant_discard; eauto.
  - eapply invariant_begin; eauto.
  - eapply invariant_finish; eauto.
Qed.

Lemma reachable_invariant (s : system) : reachable s -> invariant s.
Proof.
  induction 1 as [w D Q|s s' _ IH St].
  - now apply invariant_init.
  - eapply invariant_step; eauto.
Qed.

(** A worker that runs the whole task on the message at the head of the
    queue takes the system through its steps. *)
Lemma run_scan_task_reachable (s : system) (E : env) jid path q r w' :
  reachable s ->
  queue (sys_world s) = (jid, path) :: q ->
  run_scan_task E jid path (set_queue q (sys_world s)) = (r, w') ->
  reachable (mkSystem w' (inflight s)).
Proof.
  intros R Q T. unfold run_scan_task in T. cbn [db set_queue] in T.
  destruct (query_first jid (db (sys_world s))) as [job|] eqn:F.
  - unfold bind in T.
    destruct (mark_ongoing E job (set_queue q (sys_world s)))
      as [[job1|e] w1] eqn:M;
      [|rewrite mark_ongoing_effect in M; discriminate].
    eapply reach_step.
    + eapply reach_step; [exact R|].
      eapply (step_begin s E [] q (jid, path)); eauto.
    + eapply (step_finish _ E [] (inflight s)); cbn [inflight sys_world app];
        eauto.
  - apply pair_equal_spec in T. destruct T as [_ <-].
    eapply reach_step; [exact R|].
    eapply (step_discard s [] q (jid, path)); eauto.
Qed.

Lemma upload_project_reachable (s : system) (E : env) file_name :
  reachable s ->
  reachable (mkSystem (snd (upload_project E file_name (sys_world s)))
                      (inflight s)).
Proof.
  intros R. eapply reach_step; [exact R|].
  eapply (step_upload s E file_name). apply surjective_pairing.
Qed.

Lemma after_upload_reachable : reachable (mkSystem after_upload []).
Proof.
  apply (upload_project_reachable (mkSystem empty_world [])
           (sample_env false tools_report) (Some "project.zip")).
  now apply reach_init.
Qed.

Lemma after_task_reachable (tools : list string -> process) :
  reachable (mkSystem (after_task tools) []).
Proof.
  eapply (run_scan_task_reachable (mkSystem after_upload [])
            (sample_env false tools) "job-0" "uploads/job-0_extracted" []).
  - apply after_upload_reachable.
  - reflexivity.
  - apply surjective_pairing.
Qed.

Lemma queued_job_pending (s : system) (t : string * string) (job : Job) :
  invariant s ->
  In t (queue (sys_world s)) ->
  query_first (fst t) (db (sys_world s)) = Some job ->
  pending_shape job.
Proof.
  intros [Njid _ _ _ Hq _ _] It F. apply query_first_in in F.
  destruct F as (Ijob & Hjob). destruct (Hq t It) as (j & Ij & Hj & Pj).
  replace job with j; [exact Pj|].
  apply (nodup_map_inj job_id _ _ _ Njid Ij Ijob). congruence.
Qed.

Lemma placeholder_is_empty : result_is_empty placeholder = true.
Proof. reflexivity. Qed.

Lemma dumps_object_nonempty (k : string) (v : json) fields :
  result_is_empty (Some (json_dumps (JObj ((k, v) :: fields)))) = false.
Proof. destruct fields; reflexivity. Qed.

Lemma shape_result (j : Job) :
  lifecycle_shape j ->
  ((status j = "pending" \/ status j = "ongoing") /\ result j = placeholder) \/
  ((status j = "completed" \/ status j = "failed") /\
   result_is_empty (result j) = false).
Proof.
  intros [(S & R & _)|[(S & R & _)|[(S & (b & s & d & l & R) & _)|
                                    (S & (m & t & R) & _)]]].
  - left. auto.
  - left. auto.
  - right. split; [auto|]. rewrite R. apply dumps_object_nonempty.
  - right. split; [auto|]. rewrite R. apply dumps_object_nonempty.
Qed.

(** ** Lifecycle properties *)

Lemma reachable_is_reachable_again (s : system) :
  reachable s -> reachable_again s.
Proof.
  induction 1 as [w D Q|s s' _ IH St].
  - now apply reach_again_init.
  - eapply reach_again_step; [exact IH|]. now apply step_again_step.
Qed.

(** A worker that is handed the message of a job once more and runs the
    whole task takes the system through a second delivery. *)
Lemma run_scan_task_reachable_again (s : system) (E : env) jid job r w' :
  reachable_again s ->
  query_first jid (db (sys_world s)) = Some job ->
  run_scan_task E jid (extracted_path jid) (sys_world s) = (r, w') ->
  reachable_again (mkSystem w' (inflight s)).
Proof.
  intros R F T. unfold run_scan_task in T. rewrite F in T. unfold bind in T.
  destruct (mark_ongoing E job (sys_world s)) as [[job1|e] w1] eqn:M;
    [|rewrite mark_ongoing_effect in M; discriminate].
  eapply reach_again_step.
  - eapply reach_again_step; [exact R|].
    eapply (step_again_begin s E jid); eauto.
  - apply step_again_step.
    eapply (step_finish _ E [] (inflight s)); cbn [inflight sys_world app];
      eauto.
Qed.

Lemma sample_begun_again_reachable : reachable_again sample_begun_again.
Proof.
  eapply reach_again_step.
  - apply reachable_is_reachable_again.
    apply (after_task_reachable tools_report).
  - eapply (step_again_begin (mkSystem (after_task tools_report) [])
              (sample_env false tools_report) "job-0"
              (first_row (after_task tools_report))).
    + vm_compute; reflexivity.
    + vm_compute; reflexivity.
Qed.

Lemma redelivered_reachable_again (tools : list string -> process) :
  reachable_again (mkSystem (redelivered tools) []).
Proof.
  eapply (run_scan_task_reachable_again (mkSystem (after_task tools_report) [])
            (sample_env false tools) "job-0"
            (first_row (after_task tools_report))).
  - apply reachable_is_reachable_again. apply after_task_reachable.
  - vm_compute; reflexivity.
  - apply surjective_pairing.
Qed.

(** C4 (as amended).  On every row of a system reached with each message
    delivered once, the result column is non-empty exactly when the status
    is completed or failed; a row in any other status is pending or ongoing
    and holds the placeholder written at submission. *)
Theorem result_nonempty_iff_terminal (s : system) (j : Job) :
  reachable s ->
  In j (db (sys_world s)) ->
  (result_is_empty (result j) = false <-> is_terminal (status j) = true) /\
  (is_terminal (status j) = false ->
   (status j = "pending" \/ status j = "ongoing") /\
   result j = Some (json_dumps (JObj []))).
Proof.
  intros R I. apply reachable_invariant in R.
  destruct (shape_result j (inv_rows s R j I)) as [(S & P)|(S & P)].
  - rewrite P, placeholder_is_empty.
    destruct S as [S|S]; rewrite S; cbn; repeat split; auto; discriminate.
  - rewrite P.
    destruct S as [S|S]; rewrite S; cbn; repeat split; auto; discriminate.
Qed.

Lemma result_nonempty_iff_terminal_witness :
  reachable (mkSystem (after_task tools_report) []) /\
  In (first_row (after_task tools_report))
     (db (sys_world (mkSystem (after_task tools_report) []))) /\
  (result_is_empty (result (first_row (after_task tools_report))) = false <->
   is_terminal (status (first_row (after_task tools_report))) = true).
Proof.
  split; [apply after_task_reachable|].
  split; [vm_compute; left; reflexivity|].
  apply (result_nonempty_iff_terminal (mkSystem (after_task tools_report) [])
           (first_row (after_task tools_report))).
  - apply after_task_reachable.
  - vm_compute; left; reflexivity.
Defined.

(** C4 (as stated) fails: the executor's first transition, made on the
    message of a job that has completed, leaves a row that is ongoing and
    still holds the stored scan document. *)
Lemma redelivered_job_is_ongoing_with_result :
  reachable_again sample_begun_again /\
  db (sys_world sample_begun_again)
  = [first_row (sys_world sample_begun_again)] /\
  status (first_row (sys_world sample_begun_again)) = "ongoing" /\
  result (first_row (sys_world sample_begun_again))
  = result (first_row (after_task tools_report)) /\
  result_is_empty (result (first_row (sys_world sample_begun_again))) = false /\
  is_terminal (status (first_row (sys_world sample_begun_again))) = false /\
  ~ (result_is_empty (result (first_row (sys_world sample_begun_again))) = false
     <-> is_terminal (status (first_row (sys_world sample_begun_again))) = true).
Proof.
  split; [apply sample_begun_again_reachable|].
  split; [vm_compute; reflexivity|].
  split; [vm_compute; reflexivity|].
  split; [vm_compute; reflexivity|].
  split; [vm_compute; reflexivity|].
  split; [vm_compute; reflexivity|].
  intros [H _].
  assert (T : is_terminal (status (first_row (sys_world sample_begun_again)))
              = false) by (vm_compute; reflexivity).
  rewrite H in T; [discriminate|]. vm_compute; reflexivity.
Qed.

(** C3 (as amended).  On every row of a system reached with each message
    delivered once, [completed_at] is set exactly when the status is
    completed. *)
Theorem completed_at_iff_completed (s : system) (j : Job) :
  reachable s ->
  In j (db (sys_world s)) ->
  (completed_at j <> None <-> status j = "completed").
Proof.
  intros R I. apply reachable_invariant in R.
  destruct (inv_rows s R j I)
    as [(S & _ & _ & C)|[(S & _ & _ & C)|[(S & _ & _ & (t & C))|
                                          (S & _ & _ & C)]]];
    rewrite S, C; split; congruence.
Qed.

Lemma completed_at_iff_completed_witness :
  reachable (mkSystem (after_task tools_report) []) /\
  In (first_row (after_task tools_report))
     (db (sys_world (mkSystem (after_task tools_report) []))) /\
  (completed_at (first_row (after_task tools_report)) <> None <->
   status (first_row (after_task tools_report)) = "completed").
Proof.
  split; [apply after_task_reachable|].
  split; [vm_compute; left; reflexivity|].
  apply (completed_at_iff_completed (mkSystem (after_task tools_report) [])
           (first_row (after_task tools_report))).
  - apply after_task_reachable.
  - vm_compute; left; reflexivity.
Defined.

(** C3 (as stated) fails: one upload and one task whose scan raises leave a
    row that is failed and has no [completed_at].  Nor does [completed_at]
    follow the status once a message is delivered again: the job that
    completed at 1003 keeps that [completed_at] while it is ongoing, and
    keeps it when the second scan raises and the job ends failed. *)
Lemma completed_at_does_not_follow_status :
  (reachable (mkSystem (after_task bandit_missing) []) /\
   db (after_task bandit_missing) = [first_row (after_task bandit_missing)] /\
   status (first_row (after_task bandit_missing)) = "failed" /\
   completed_at (first_row (after_task bandit_missing)) = None /\
   ~ (completed_at (first_row (after_task bandit_missing)) <> None <->
      status (first_row (after_task bandit_missing)) = "completed" \/
      status (first_row (after_task bandit_missing)) = "failed")) /\
  (reachable_again sample_begun_again /\
   status (first_row (sys_world sample_begun_again)) = "ongoing" /\
   completed_at (first_row (sys_world sample_begun_again)) = Some 1003%Z) /\
  (reachable_again (mkSystem (redelivered bandit_missing) []) /\
   status (first_row (redelivered bandit_missing)) = "failed" /\
   completed_at (first_row (redelivered bandit_missing)) = Some 1003%Z).
Proof.
  split; [|split].
  - split; [apply after_task_reachable|].
    split; [vm_compute; reflexivity|].
    split; [vm_compute; reflexivity|].
    split; [vm_compute; reflexivity|].
    intros [_ H]. apply H; [right|]; vm_compute; reflexivity.
  - split; [apply sample_begun_again_reachable|].
    split; vm_compute; reflexivity.
  - split; [apply redelivered_reachable_again|].
    split; vm_compute; reflexivity.
Qed.

(** C2 (as amended).  Along the runs of the system a step leaves each row
    as it is or moves its status one stage forward, pending to ongoing or
    ongoing to completed or failed, under the same keys; a row that is
    completed or failed is never changed by a step. *)
Theorem status_only_advances (s s' : system) (j : Job) :
  reachable s ->
  step s s' ->
  In j (db (sys_world s)) ->
  exists j',
    In j' (db (sys_world s')) /\
    id j' = id j /\ job_id j' = job_id j /\
    (j' = j \/ advances (status j) (status j')) /\
    (is_terminal (status j) = true -> j' = j).
Proof.
  intros R St Ij. apply reachable_invariant in R. destruct St.
  - apply upload_project_effect in H.
    destruct H as [(D & _)|(? & ? & ? & ? & ? & D & _)];
      exists j; cbn [sys_world]; rewrite D; rewrite ?in_app_iff; auto 6.
  - apply get_job_frame in H. subst w'. exists j. auto 6.
  - exists j. cbn [sys_world set_queue db]. auto 6.
  - assert (P : pending_shape job).
    { eapply (queued_job_pending s t); eauto. rewrite H. apply in_elt. }
    rewrite mark_ongoing_effect in H1. apply pair_equal_spec in H1.
    destruct H1 as [H1 <-]. injection H1 as <-.
    apply query_first_in in H0. destruct H0 as (Ijob & _).
    cbn [sys_world set_queue set_db tick db].
    destruct (Z.eq_dec (id j) (id job)) as [e|n].
    + assert (j = job) by (apply (nodup_map_inj id _ _ _ (inv_ids s R) Ij Ijob e)).
      subst j. eexists. split; [eapply flush_in; [exact Ijob|reflexivity]|].
      fields. destruct P as (S & _). rewrite S.
      repeat split; [right; left; auto | discriminate].
    + exists j. split; [apply flush_keeps; auto|]. auto 6.
  - apply scan_and_save_effect in H0.
    destruct H0 as (_ & job' & D & Hid & Hjid & _ & _ & Shape).
    destruct (inv_running s R (job, path)) as (Ijob & O);
      [rewrite H; apply in_elt|]. cbn [fst] in Ijob, O.
    cbn [sys_world]. rewrite D.
    destruct (Z.eq_dec (id j) (id job)) as [e|n].
    + assert (j = job) by (apply (nodup_map_inj id _ _ _ (inv_ids s R) Ij Ijob e)).
      subst j. exists job'. split; [eapply flush_in; eauto|].
      destruct O as (S & _). rewrite S.
      repeat split; auto; [|discriminate]. right. right. split; [reflexivity|].
      destruct Shape as [((C & _) & _)|(F & _)]; auto.
    + exists j. split; [apply flush_keeps; auto; congruence|]. auto 6.
Qed.

Lemma sample_begun_step : step (mkSystem after_upload []) sample_begun.
Proof.
  eapply (step_begin (mkSystem after_upload []) (sample_env false tools_report)
            [] [] ("job-0", "uploads/job-0_extracted")
            (first_row after_upload)).
  - vm_compute; reflexivity.
  - vm_compute; reflexivity.
  - vm_compute; reflexivity.
Qed.

Lemma status_only_advances_witness :
  reachable (mkSystem after_upload []) /\
  step (mkSystem after_upload []) sample_begun /\
  In (first_row after_upload) (db (sys_world (mkSystem after_upload []))) /\
  exists j',
    In j' (db (sys_world sample_begun)) /\
    id j' = id (first_row after_upload) /\
    job_id j' = job_id (first_row after_upload) /\
    (j' = first_row after_upload \/
     advances (status (first_row after_upload)) (status j')) /\
    (is_terminal (status (first_row after_upload)) = true ->
     j' = first_row after_upload).
Proof.
  split; [apply after_upload_reachable|].
  split; [apply sample_begun_step|].
  split; [vm_compute; left; reflexivity|].
  apply (status_only_advances (mkSystem after_upload []) sample_begun
           (first_row after_upload)).
  - apply after_upload_reachable.
  - apply sample_begun_step.
  - vm_compute; left; reflexivity.
Defined.

(** The task looks at no column of the job it finds: whatever status and
    result the job had, it ends completed with the new document or failed
    with the error document. *)
Lemma run_scan_task_overwrites (E : env) (jid p : string) (w : world) (job : Job) :
  query_first jid (db w) = Some job ->
  exists job',
    query_first jid (db (snd (run_scan_task E jid p w))) = Some job' /\
    ((exists doc w1,
         scan_project E p (snd (mark_ongoing E job w)) = (Ok doc, w1) /\
         status job' = "completed" /\
         result job' = Some (json_dumps doc)) \/
     (exists e w1,
         scan_project E p (snd (mark_ongoing E job w)) = (Raise e, w1) /\
         status job' = "failed" /\
         result job'
         = Some (json_dumps (JObj [("error", JStr (exn_msg e));
                                   ("trace", JStr (format_exc E e))])))).
Proof.
  intros Q. unfold run_scan_task. rewrite Q. unfold bind at 1.
  rewrite mark_ongoing_effect. cbn [snd].
  unfold scan_and_save, try_except, bind.
  destruct (scan_project E p _) as [[doc|e] w1] eqn:R;
    destruct (scan_project_frame E p _ _ _ R) as (Hd & _).
  - destruct (scan_project_ok E p _ doc w1 R) as (b & s & d & l & ->).
    rewrite save_result_effect. cbn [snd db set_db tick] in *. rewrite Hd.
    eexists. split.
    + eapply query_first_flush; [eapply query_first_flush; [exact Q| |]| |];
        reflexivity.
    + left. do 2 eexists. repeat split.
  - rewrite save_failure_effect. cbn [snd db set_db tick] in *. rewrite Hd.
    eexists. split.
    + eapply query_first_flush; [eapply query_first_flush; [exact Q| |]| |];
        reflexivity.
    + right. do 2 eexists. repeat split.
Qed.

(** C2 (as stated) fails: the task makes no status check.  Handed the
    message of a completed job once more, it marks the job ongoing and then
    saves again: with the tools as before the job is completed anew with
    later timestamps, and with bandit gone it ends failed with its result
    overwritten. *)
Lemma redelivery_rewrites_a_completed_job :
  status (first_row (after_task tools_report)) = "completed" /\
  completed_at (first_row (after_task tools_report)) = Some 1003%Z /\
  updated_at (first_row (after_task tools_report)) = Some 1004%Z /\
  status (first_row
            (snd (mark_ongoing (sample_env false tools_report)
                               (first_row (after_task tools_report))
                               (after_task tools_report)))) = "ongoing" /\
  status (first_row (redelivered tools_report)) = "completed" /\
  completed_at (first_row (redelivered tools_report)) = Some 1006%Z /\
  updated_at (first_row (redelivered tools_report)) = Some 1007%Z /\
  status (first_row (redelivered bandit_missing)) = "failed" /\
  result (first_row (redelivered bandit_missing))
  <> result (first_row (after_task tools_report)).
Proof.
  repeat split; try (vm_compute; reflexivity).
  vm_compute. discriminate.
Qed.

(** ** Summary and score *)

(** Whatever the analyzers report, a completed task stores the summary
    with the count 0: the aggregated document has no [issues] entry. *)
Lemma completed_summary_is_zero (E : env) (job : Job) (p : string) w doc w1 :
  scan_project E p w = (Ok doc, w1) ->
  exists job',
    scan_and_save E job p w
    = (Ok tt, set_db (flush job' (db w)) (tick (tick w1))) /\
    status job' = "completed" /\
    result job' = Some (json_dumps doc) /\
    summary job' = Some "Scan finished with 0 issues" /\
    completed_at job' = Some (utcnow_at E (clock_reads w)).
Proof.
  intros S. unfold scan_and_save, try_except, bind. rewrite S.
  destruct (scan_project_frame E p w _ _ S) as (Hd & _ & _ & Hc & _).
  destruct (scan_project_ok E p w doc w1 S) as (b & s & d & l & ->).
  rewrite save_result_effect, Hd, Hc. eexists. split; [reflexivity|].
  fields. repeat split.
Qed.

(** C8 at its failing input: bandit reports three issues, which the report
    code counts, and the task stores a summary that counts none. *)
Theorem summary_counts_no_issues :
  status (first_row (after_task tools_report)) = "completed" /\
  summary (first_row (after_task tools_report))
  = Some "Scan finished with 0 issues" /\
  exists doc w1 sc,
    scan_project (sample_env false tools_report) "uploads/job-0_extracted"
                 (snd (mark_ongoing (sample_env false tools_report)
                                    (first_row after_upload)
                                    (delivered after_upload)))
    = (Ok doc, w1) /\
    result (first_row (after_task tools_report)) = Some (json_dumps doc) /\
    generate_html_report_scores doc = Ok sc /\
    total_issues sc = 3%Z.
Proof.
  split; [vm_compute; reflexivity|]. split; [vm_compute; reflexivity|].
  do 3 eexists. split; [vm_compute; reflexivity|].
  split; [vm_compute; reflexivity|].
  split; [vm_compute; reflexivity|]. reflexivity.
Qed.

(** The score never looks at the dependency audit: [scan_project] files it
    under [dependency_scan], the report reads [dependency_analysis]. *)
Lemma score_ignores_dependency_scan (b s d d' c : json) :
  generate_html_report_scores (scan_document b s d c)
  = generate_html_report_scores (scan_document b s d' c).
Proof. reflexivity. Qed.

(** The worked example: no manifest and three medium findings give 7.0. *)
Lemma three_medium_score :
  exists sc,
    generate_html_report_scores
      (scan_document three_medium semgrep_clean no_manifest_result (JArr []))
    = Ok sc /\
    total_issues sc = 3%Z /\ critical_issues sc = 0%Z /\ high_issues sc = 3%Z /\
    (score sc == 7)%Q.
Proof. eexists. split; [vm_compute; reflexivity|]. repeat split. Qed.

(** C5 at its failing input: the stored document holds one vulnerable
    package from the dependency audit, and the report counts three issues
    and scores 7.0 as if there were none. *)
Theorem score_leaves_out_dependency_audit :
  fst (scan_project (sample_env true tools_report) "uploads/job-0_extracted"
                    empty_world) = Ok audited_document /\
  py_get audited_document "dependency_scan" JNull = Ok audit_report /\
  (and_then (py_get audit_report "pip_audit" (JObj []))
            (fun a => and_then (py_get a "vulnerabilities" (JArr [])) py_len))
  = Ok 1%nat /\
  exists sc,
    generate_html_report_scores audited_document = Ok sc /\
    total_issues sc = 3%Z /\ critical_issues sc = 0%Z /\ high_issues sc = 3%Z /\
    (score sc == 7)%Q.
Proof.
  split; [vm_compute; reflexivity|]. split; [vm_compute; reflexivity|].
  split; [vm_compute; reflexivity|].
  eexists. split; [vm_compute; reflexivity|]. repeat split.
Qed.

Lemma failure_path_keeps_other_fields_witness :
  query_first "job-0" (db (delivered after_upload))
  = Some (first_row after_upload) /\
  fst (scan_project (sample_env false bandit_missing) "uploads/job-0_extracted"
         (snd (mark_ongoing (sample_env false bandit_missing)
                            (first_row after_upload) (delivered after_upload))))
  = Raise (Exn "FileNotFoundError"
               "[Errno 2] No such file or directory: '/opt/conda/bin/bandit'") /\
  exists job',
    query_first "job-0" (db (after_task bandit_missing)) = Some job' /\
    status job' = "failed" /\
    result job'
    = Some (json_dumps
              (JObj [("error",
                      JStr "[Errno 2] No such file or directory: '/opt/conda/bin/bandit'");
                     ("trace",
                      JStr "Traceback (most recent call last): FileNotFoundError")])) /\
    id job' = id (first_row after_upload) /\
    job_id job' = job_id (first_row after_upload) /\
    filename job' = filename (first_row after_upload) /\
    summary job' = summary (first_row after_upload) /\
    created_at job' = created_at (first_row after_upload) /\
    completed_at job' = completed_at (first_row after_upload).
Proof.
  split; [vm_compute; reflexivity|]. split; [vm_compute; reflexivity|].
  apply (failure_path_keeps_other_fields (sample_env false bandit_missing)
           "job-0" "uploads/job-0_extracted" (delivered after_upload)
           (first_row after_upload)
           (Exn "FileNotFoundError"
                "[Errno 2] No such file or directory: '/opt/conda/bin/bandit'")).
  - vm_compute; reflexivity.
  - vm_compute; reflexivity.
Defined.

(** * Further properties *)

(** ** A scan as a sequence of launches *)

Lemma add_calls_nil (w : world) : add_calls [] w = w.
Proof. destruct w. unfold add_calls. cbn. now rewrite app_nil_r. Qed.

Lemma add_calls_app (a b : list (list string)) (w : world) :
  add_calls (a ++ b) w = add_calls b (add_calls a w).
Proof. unfold add_calls. cbn. now rewrite app_assoc. Qed.

Lemma attempted_app_ok (E : env) (l1 l2 : list (list string)) :
  first_failure E l1 = None ->
  attempted E (l1 ++ l2) = attempted E l1 ++ attempted E l2 /\
  first_failure E (l1 ++ l2) = first_failure E l2.
Proof.
  induction l1 as [|a l1 IH]; cbn [app attempted first_failure]; [auto|].
  destruct (subprocess_run E a); [|discriminate].
  intros H. destruct (IH H) as (-> & ->). auto.
Qed.

Lemma attempted_app_raise (E : env) (l1 l2 : list (list string)) (e : exn) :
  first_failure E l1 = Some e ->
  attempted E (l1 ++ l2) = attempted E l1 /\
  first_failure E (l1 ++ l2) = Some e.
Proof.
  induction l1 as [|a l1 IH]; cbn [app attempted first_failure]; [discriminate|].
  destruct (subprocess_run E a); [|auto].
  intros H. destruct (IH H) as (-> & ->). auto.
Qed.

Lemma traces_ret {A : Type} (E : env) (a : A) : traces E (ret a) [] (Ok a).
Proof.
  split; [|cbn; eauto]. intros w. cbn [attempted]. now rewrite add_calls_nil.
Qed.

Lemma traces_run (E : env) (argv : list string) :
  exists r, traces E (run E argv) [argv] r.
Proof.
  unfold traces, run. cbn [attempted first_failure].
  destruct (subprocess_run E argv) as [rc out|e]; eexists; split;
    try (intros w; reflexivity); eauto.
Qed.

Lemma traces_bind {A B : Type} (E : env) (m : M A) (k : A -> M B)
      (l1 l2 : list (list string)) :
  (exists r1, traces E m l1 r1) ->
  (forall a, exists r2, traces E (k a) l2 r2) ->
  exists r, traces E (bind m k) (l1 ++ l2) r.
Proof.
  intros (r1 & H1 & F1) K. destruct (first_failure E l1) as [e|] eqn:F.
  - subst r1. destruct (attempted_app_raise E l1 l2 e F) as (At & Fa).
    exists (Raise e). split; [|now rewrite Fa].
    intros w. unfold bind. rewrite H1, At. reflexivity.
  - destruct F1 as (a & ->). destruct (K a) as (r2 & H2 & F2).
    destruct (attempted_app_ok E l1 l2 F) as (At & Fa).
    exists r2. split; [|now rewrite Fa].
    intros w. unfold bind. rewrite H1, H2, At, add_calls_app. reflexivity.
Qed.

Lemma traces_decode (E : env) (argv : list string) (fallback : json) :
  exists r,
    traces E (bind (run E argv)
                   (fun result =>
                      match json_loads E (snd result) with
                      | Some v => ret v
                      | None => ret fallback
                      end)) [argv] r.
Proof.
  apply (traces_bind E _ _ [argv] []); [apply traces_run|].
  intros a. destruct (json_loads E (snd a)); eexists; apply traces_ret.
Qed.

Lemma traces_pylint_loop (E : env) (files : list string) :
  forall acc,
  exists r, traces E (pylint_loop E files acc) (map (pylint_argv E) files) r.
Proof.
  induction files as [|f rest IH]; intros acc; cbn [pylint_loop map].
  - eexists. apply traces_ret.
  - apply (traces_bind E _ _ [pylint_argv E f] (map (pylint_argv E) rest));
      [apply traces_run|].
    intros a. destruct (json_loads E (snd a)); apply IH.
Qed.

Lemma traces_run_pip_audit (E : env) (p : string) :
  exists r,
    traces E (run_pip_audit E p)
           (if path_exists E (path_join p "requirements.txt")
            then [pip_audit_argv E (path_join p "requirements.txt")]
            else []) r.
Proof.
  unfold run_pip_audit.
  destruct (path_exists E (path_join p "requirements.txt")); cbn [negb].
  - apply traces_decode.
  - eexists. apply traces_ret.
Qed.

Lemma traces_run_pylint (E : env) (p : string) :
  exists r, traces E (run_pylint E p) (map (pylint_argv E) (rglob_py E p)) r.
Proof.
  unfold run_pylint.
  rewrite <- (app_nil_r (map (pylint_argv E) (rglob_py E p))).
  apply traces_bind; [apply traces_pylint_loop|].
  intros a. eexists. apply traces_ret.
Qed.

Lemma traces_scan_project (E : env) (p : string) :
  exists r, traces E (scan_project E p) (planned E p) r.
Proof.
  unfold scan_project, planned.
  apply (traces_bind E _ _ [bandit_argv E p]); [apply traces_decode|].
  intros b.
  apply (traces_bind E _ _ [semgrep_argv E p]); [apply traces_decode|].
  intros s.
  apply traces_bind; [apply traces_run_pip_audit|]. intros d.
  rewrite <- (app_nil_r (map (pylint_argv E) (rglob_py E p))).
  apply traces_bind; [apply traces_run_pylint|]. intros l.
  eexists. apply traces_ret.
Qed.

(** The outcome of a scan and the launches it makes do not depend on the
    world it starts in. *)
Lemma scan_project_anywhere (E : env) (p : string) (w0 w : world) :
  scan_project E p w
  = (fst (scan_project E p w0), add_calls (attempted E (planned E p)) w).
Proof.
  destruct (traces_scan_project E p) as (r & H & _).
  rewrite (H w), (H w0). reflexivity.
Qed.

(** X1.  A scan changes nothing in the world but the log of launched
    processes, to which it appends its planned launches in order: bandit,
    semgrep, pip-audit when there is a manifest, then pylint once per
    Python file, and nothing after the first launch that cannot start. *)
Theorem scan_project_launches_in_order (E : env) (p : string) (w : world) :
  snd (scan_project E p w) = add_calls (attempted E (planned E p)) w.
Proof.
  destruct (traces_scan_project E p) as (r & H & _).
  rewrite (H w). reflexivity.
Qed.

(** X2.  A scan raises exactly when one of its planned launches cannot
    start, and then it raises that launch's exception; otherwise it returns
    its four-entry document. *)
Theorem scan_project_raises_first_launch_error
        (E : env) (p : string) (w : world) :
  match first_failure E (planned E p) with
  | Some e => fst (scan_project E p w) = Raise e
  | None =>
      exists b s d l,
        fst (scan_project E p w) = Ok (scan_document b s d (JArr l))
  end.
Proof.
  destruct (traces_scan_project E p) as (r & H & F).
  destruct (first_failure E (planned E p)) as [e|].
  - now rewrite (H w), F.
  - destruct F as (doc & ->).
    destruct (scan_project_ok E p w doc _ (H w)) as (b & s & d & l & ->).
    rewrite (H w). exists b, s, d, l. reflexivity.
Qed.

(** ** The executor, once more *)

Lemma flush_flush (j1 j2 : Job) (rows : list Job) :
  id j1 = id j2 -> flush j2 (flush j1 rows) = flush j2 rows.
Proof.
  intros H. unfold flush. rewrite map_map. apply map_ext. intros r.
  destruct (Z.eqb (id r) (id j1)) eqn:K.
  - rewrite H, Z.eqb_refl. apply Z.eqb_eq in K. rewrite K, H, Z.eqb_refl.
    reflexivity.
  - reflexivity.
Qed.

(** The world a finished second phase leaves: one flush, the scan's
    launches, one or two clock readings. *)
Lemma scan_and_save_world (E : env) (job : Job) (p : string) (w : world) :
  exists job' n,
    scan_and_save E job p w
    = (Ok tt,
       mkWorld (flush job' (db w)) (queue w)
               (calls w ++ attempted E (planned E p)) (written w)
               (n + clock_reads w) (uuid_draws w)) /\
    id job' = id job.
Proof.
  unfold scan_and_save, try_except, bind.
  rewrite (scan_project_anywhere E p w w).
  destruct (fst (scan_project E p w)) as [doc|e] eqn:R.
  - assert (S : scan_project E p w = (Ok doc, snd (scan_project E p w)))
      by (rewrite <- R; apply surjective_pairing).
    destruct (scan_project_ok E p w doc _ S) as (b & s & d & l & ->).
    rewrite save_result_effect. eexists. exists 2. split; reflexivity.
  - rewrite save_failure_effect. eexists. exists 1. split; reflexivity.
Qed.

(** X4.  A task neither adds nor removes rows, leaves the queue, the files
    and the identifier generator alone, and keeps every row whose primary
    key is not that of the job it found. *)
Theorem run_scan_task_touches_one_row (E : env) (jid p : string) (w : world) :
  queue (snd (run_scan_task E jid p w)) = queue w /\
  written (snd (run_scan_task E jid p w)) = written w /\
  uuid_draws (snd (run_scan_task E jid p w)) = uuid_draws w /\
  map id (db (snd (run_scan_task E jid p w))) = map id (db w) /\
  forall job r,
    query_first jid (db w) = Some job ->
    In r (db w) -> id r <> id job ->
    In r (db (snd (run_scan_task E jid p w))).
Proof.
  unfold run_scan_task. destruct (query_first jid (db w)) as [job|] eqn:Q.
  - unfold bind. rewrite mark_ongoing_effect.
    destruct (scan_and_save_world E
                (set_updated_at (Some (utcnow_at E (clock_reads w)))
                                (set_status "ongoing" job)) p
                (set_db (flush (set_updated_at
                                  (Some (utcnow_at E (clock_reads w)))
                                  (set_status "ongoing" job)) (db w)) (tick w)))
      as (job' & n & -> & Hid).
    cbn [snd queue written uuid_draws db set_db tick]. fields.
    repeat split.
    + now rewrite !map_id_flush.
    + intros job0 r [= <-] I N.
      apply flush_keeps; [apply flush_keeps|]; auto. congruence.
  - cbn [snd]. repeat split. intros job r H. discriminate.
Qed.

(** X5.  The in-process variant [run_scan] and the queued task end in the
    same world with the same outcome: the label "running" that the variant
    writes in between does not survive, and its second query finds the job
    the task kept. *)
Theorem run_scan_agrees_with_task (E : env) (jid p : string) (w : world) :
  run_scan E jid p w = run_scan_task E jid p w.
Proof.
  destruct (traces_scan_project E p) as (r & H & _).
  unfold run_scan, run_scan_task, try_except.
  destruct (query_first jid (db w)) as [job|] eqn:Q; [|reflexivity].
  unfold scan_and_save, try_except, mark_ongoing, bind, utcnow, commit, ret.
  rewrite !H.
  destruct r as [doc|e].
  - destruct (scan_project_ok E p w doc _ (H w)) as (b & s & d & l & ->).
    rewrite !save_result_effect.
    cbn [db set_db tick add_calls clock_reads]. fields.
    rewrite !flush_flush by reflexivity. reflexivity.
  - cbn [db set_db tick add_calls].
    rewrite (query_first_flush jid (db w) job _ Q) by reflexivity.
    rewrite !save_failure_effect.
    cbn [db set_db tick add_calls clock_reads]. fields.
    rewrite !flush_flush by reflexivity. reflexivity.
Qed.

(** ** Upload, once more *)

Ltac world_simpl :=
  unfold log_write, draw, tick, set_db, set_queue;
  cbn [db queue calls written clock_reads uuid_draws].

Lemma unused_job_id_query (jid : string) (rows : list Job) :
  existsb (fun r => String.eqb (job_id r) jid) rows = false ->
  query_first jid rows = None.
Proof.
  unfold query_first. induction rows as [|r rows IH]; cbn [existsb find];
    [reflexivity|].
  destruct (String.eqb (job_id r) jid); cbn [orb]; [discriminate | exact IH].
Qed.

Lemma query_first_app_new (jid : string) (rows : list Job) (j : Job) :
  query_first jid rows = None -> job_id j = jid ->
  query_first jid (rows ++ [j]) = Some j.
Proof.
  unfold query_first. intros N H.
  induction rows as [|r rows IH]; cbn [app find] in *.
  - rewrite H, String.eqb_refl. reflexivity.
  - destruct (String.eqb (job_id r) jid); [discriminate | auto].
Qed.

(** Every way an upload can end, with the world it leaves. *)
Lemma upload_project_cases (E : env) (file_name : option string) (w : world) :
  (accepted_filename file_name = false /\
   exists msg,
     upload_project E file_name w = (Raise (Exn "ValueError" msg), w)) \/
  (exists name,
      file_name = Some name /\ accepted_filename file_name = true /\
      let jid := uuid4_at E (uuid_draws w) in
      let files := written w ++ [archive_path jid name; extracted_path jid] in
      (exists e,
          extractall E (archive_path jid name) (extracted_path jid) = Some e /\
          upload_project E file_name w
          = (Raise e,
             mkWorld (db w) (queue w) (calls w) files (clock_reads w)
                     (S (uuid_draws w)))) \/
      (extractall E (archive_path jid name) (extracted_path jid) = None /\
       existsb (fun r => String.eqb (job_id r) jid) (db w) = true /\
       upload_project E file_name w
       = (Raise (Exn "IntegrityError" "UNIQUE constraint failed: jobs.job_id"),
          mkWorld (db w) (queue w) (calls w) files (S (S (clock_reads w)))
                  (S (uuid_draws w)))) \/
      (extractall E (archive_path jid name) (extracted_path jid) = None /\
       existsb (fun r => String.eqb (job_id r) jid) (db w) = false /\
       upload_project E file_name w
       = (Ok (JObj [("job_id", JStr jid); ("status", JStr "pending")]),
          mkWorld (db w ++ [uploaded_row E name w])
                  (queue w ++ [(jid, extracted_path jid)]) (calls w) files
                  (S (S (clock_reads w))) (S (uuid_draws w))))).
Proof.
  destruct (accepted_filename file_name) eqn:A.
  - right. destruct file_name as [name|]; [|discriminate].
    exists name. split; [reflexivity|]. split; [reflexivity|].
    cbn [accepted_filename] in A. apply andb_prop in A. destruct A as (A1 & A2).
    unfold upload_project, try_except, raise.
    destruct (String.eqb name ""); [discriminate|]. rewrite A2. cbn [negb].
    unfold bind, uuid4, save_upload, extract_zip, utcnow, add_and_commit,
      delay, ret, archive_path, extracted_path.
    destruct (extractall E _ _) as [e|].
    + left. exists e. split; [reflexivity|].
      world_simpl. rewrite <- app_assoc. reflexivity.
    + right. world_simpl. cbn [job_id].
      destruct (existsb _ (db w)) eqn:X.
      * left. repeat split. world_simpl. rewrite <- app_assoc. reflexivity.
      * right. repeat split. world_simpl. rewrite <- app_assoc. reflexivity.
  - left. destruct (upload_project_rejects E file_name w A) as (msg & U & _).
    split; eauto.
Qed.

(** X6.  An upload that returns has added exactly one pending row, under
    a [job_id] no row had, and exactly one message, for that id and its
    extracted directory; it has written the archive and the directory under
    [uploads/] and answers with that id. *)
Theorem upload_project_returns_one_job
        (E : env) (file_name : option string) (w : world)
        (resp : json) (w1 : world) :
  upload_project E file_name w = (Ok resp, w1) ->
  exists name,
    file_name = Some name /\
    accepted_filename file_name = true /\
    resp = JObj [("job_id", JStr (uuid4_at E (uuid_draws w)));
                 ("status", JStr "pending")] /\
    ~ In (uuid4_at E (uuid_draws w)) (map job_id (db w)) /\
    db w1 = db w ++ [uploaded_row E name w] /\
    queue w1 = queue w ++ [(uuid4_at E (uuid_draws w),
                            extracted_path (uuid4_at E (uuid_draws w)))] /\
    written w1 = written w ++ [archive_path (uuid4_at E (uuid_draws w)) name;
                               extracted_path (uuid4_at E (uuid_draws w))].
Proof.
  intros U.
  destruct (upload_project_cases E file_name w)
    as [(_ & msg & U')|
        (name & N & A & [(e & _ & U')|[(_ & _ & U')|(_ & X & U')]])];
    rewrite U' in U; try discriminate.
  apply pair_equal_spec in U. destruct U as [U <-]. injection U as <-.
  exists name. cbn [db queue written]. repeat split; auto.
  now apply unused_job_id.
Qed.

Lemma upload_project_returns_one_job_witness :
  upload_project (sample_env false tools_report) (Some "project.zip")
                 empty_world
  = (Ok (JObj [("job_id", JStr "job-0"); ("status", JStr "pending")]),
     after_upload) /\
  db after_upload
  = [uploaded_row (sample_env false tools_report) "project.zip" empty_world] /\
  queue after_upload = [("job-0", "uploads/job-0_extracted")] /\
  written after_upload
  = ["uploads/job-0_project.zip"; "uploads/job-0_extracted"].
Proof.
  assert (U : upload_project (sample_env false tools_report)
                             (Some "project.zip") empty_world
              = (Ok (JObj [("job_id", JStr "job-0");
                           ("status", JStr "pending")]), after_upload))
    by (vm_compute; reflexivity).
  split; [exact U|].
  destruct (upload_project_returns_one_job
              (sample_env false tools_report) (Some "project.zip") empty_world
              _ _ U) as (name & N & _ & _ & _ & D & Q & W).
  injection N as <-.
  split; [exact D|]. split; [exact Q | exact W].
Defined.

(** X7.  When the archive cannot be extracted the upload raises the
    extractor's exception and creates no job and no message, but the saved
    archive and the extraction directory stay behind under [uploads/]. *)
Theorem upload_corrupt_archive_leaves_files
        (E : env) (name : string) (w : world) (e : exn) :
  accepted_filename (Some name) = true ->
  extractall E (archive_path (uuid4_at E (uuid_draws w)) name)
             (extracted_path (uuid4_at E (uuid_draws w))) = Some e ->
  fst (upload_project E (Some name) w) = Raise e /\
  db (snd (upload_project E (Some name) w)) = db w /\
  queue (snd (upload_project E (Some name) w)) = queue w /\
  written (snd (upload_project E (Some name) w))
  = written w ++ [archive_path (uuid4_at E (uuid_draws w)) name;
                  extracted_path (uuid4_at E (uuid_draws w))].
Proof.
  intros A X.
  destruct (upload_project_cases E (Some name) w)
    as [(A' & _)|(name' & [= <-] & _ & [(e' & X' & U)|[(X' & _)|(X' & _)]])];
    try congruence.
  rewrite U. cbn [fst snd db queue written]. repeat split. congruence.
Qed.

Lemma upload_corrupt_archive_leaves_files_witness :
  accepted_filename (Some "project.zip") = true /\
  extractall corrupt_env
             (archive_path (uuid4_at corrupt_env (uuid_draws empty_world))
                           "project.zip")
             (extracted_path (uuid4_at corrupt_env (uuid_draws empty_world)))
  = Some (Exn "BadZipFile" "File is not a zip file") /\
  fst (upload_project corrupt_env (Some "project.zip") empty_world)
  = Raise (Exn "BadZipFile" "File is not a zip file") /\
  db (snd (upload_project corrupt_env (Some "project.zip") empty_world)) = [] /\
  queue (snd (upload_project corrupt_env (Some "project.zip") empty_world)) = [] /\
  written (snd (upload_project corrupt_env (Some "project.zip") empty_world))
  = [] ++ [archive_path (uuid4_at corrupt_env (uuid_draws empty_world))
                        "project.zip";
           extracted_path (uuid4_at corrupt_env (uuid_draws empty_world))].
Proof.
  split; [reflexivity|]. split; [reflexivity|].
  apply (upload_corrupt_archive_leaves_files corrupt_env "project.zip"
           empty_world (Exn "BadZipFile" "File is not a zip file"));
    reflexivity.
Defined.

(** ** Deleting jobs *)

Lemma in_db_delete (job r : Job) (rows : list Job) :
  In r (db_delete job rows) <-> In r rows /\ id r <> id job.
Proof.
  unfold db_delete. rewrite filter_In.
  destruct (Z.eqb_spec (id r) (id job)); cbn [negb]; intuition congruence.
Qed.

Lemma in_remove_path (path p : string) (w : world) :
  In p (written (remove_path path w)) <-> In p (written w) /\ p <> path.
Proof.
  unfold remove_path. cbn [written]. rewrite filter_In.
  destruct (String.eqb_spec p path); cbn [negb]; intuition congruence.
Qed.

Lemma in_remove_job_files (jid : string) (job : Job) (p : string) (w : world) :
  In p (written (remove_job_files jid job w)) <->
  In p (written w) /\ p <> archive_path jid (filename job) /\
  p <> extracted_path jid.
Proof.
  unfold remove_job_files. rewrite !in_remove_path.
  unfold archive_path, extracted_path. tauto.
Qed.

Lemma filter_keeps_all {A : Type} (f : A -> bool) (l : list A) :
  (forall x, In x l -> f x = true) -> filter f l = l.
Proof.
  induction l as [|a l IH]; cbn [filter]; [reflexivity|].
  intros H. rewrite (H a (or_introl eq_refl)), IH; [reflexivity|].
  intros x I. apply H. now right.
Qed.

Lemma query_first_some (jid : string) (rows : list Job) (j : Job) :
  In j rows -> job_id j = jid -> exists j', query_first jid rows = Some j'.
Proof.
  intros I H. destruct (query_first jid rows) as [j'|] eqn:Q; [eauto|].
  exfalso. exact (query_first_none jid rows j Q I H).
Qed.

Lemma deleted_job_is_gone (jid : string) (rows : list Job) (job : Job) :
  NoDup (map job_id rows) ->
  query_first jid rows = Some job ->
  query_first jid (db_delete job rows) = None.
Proof.
  intros N Q. apply query_first_in in Q. destruct Q as (Ij & Hj).
  destruct (query_first jid (db_delete job rows)) as [r|] eqn:Q'; [|reflexivity].
  apply query_first_in in Q'. destruct Q' as (Ir & Hr).
  apply in_db_delete in Ir. destruct Ir as (Ir & Nr). exfalso. apply Nr.
  f_equal. apply (nodup_map_inj job_id rows r job N Ir Ij). congruence.
Qed.

(** X8.  Deleting a job of a table with unique job ids removes exactly the
    row with the job's primary key and both of its paths under [uploads/],
    and leaves the queue as it is; afterwards reading the job and deleting
    it again both answer "Job not found". *)
Theorem delete_job_removes_record_and_files
        (E : env) (jid : string) (w : world) (job : Job) :
  NoDup (map job_id (db w)) ->
  query_first jid (db w) = Some job ->
  fst (delete_job jid w)
  = Ok (JObj [("message", JStr ("Job " ^^ jid ^^ " deleted successfully"))]) /\
  (forall r, In r (db (snd (delete_job jid w))) <->
             In r (db w) /\ id r <> id job) /\
  ~ In (archive_path jid (filename job)) (written (snd (delete_job jid w))) /\
  ~ In (extracted_path jid) (written (snd (delete_job jid w))) /\
  queue (snd (delete_job jid w)) = queue w /\
  get_job E jid (snd (delete_job jid w))
  = (Ok (JObj [("error", JStr "Job not found")]), snd (delete_job jid w)) /\
  delete_job jid (snd (delete_job jid w))
  = (Ok (JObj [("error", JStr "Job not found")]), snd (delete_job jid w)).
Proof.
  intros N Q. pose proof (deleted_job_is_gone jid (db w) job N Q) as G.
  assert (D : delete_job jid w
              = (Ok (JObj [("message",
                            JStr ("Job " ^^ jid ^^ " deleted successfully"))]),
                 remove_job_files jid job (set_db (db_delete job (db w)) w)))
    by (unfold delete_job; rewrite Q; reflexivity).
  rewrite D. cbn [fst snd]. unfold get_job, delete_job.
  change (db (remove_job_files jid job (set_db (db_delete job (db w)) w)))
    with (db_delete job (db w)).
  rewrite G.
  split; [reflexivity|]. split; [intros r; apply in_db_delete|].
  split; [rewrite in_remove_job_files; tauto|].
  split; [rewrite in_remove_job_files; tauto|].
  repeat split.
Qed.

Lemma delete_job_removes_record_and_files_witness :
  NoDup (map job_id (db (after_task tools_report))) /\
  query_first "job-0" (db (after_task tools_report))
  = Some (first_row (after_task tools_report)) /\
  get_job reading_env "job-0" (snd (delete_job "job-0" (after_task tools_report)))
  = (Ok (JObj [("error", JStr "Job not found")]),
     snd (delete_job "job-0" (after_task tools_report))).
Proof.
  assert (N : NoDup (map job_id (db (after_task tools_report)))).
  { vm_compute. constructor; [intros []|constructor]. }
  assert (Q : query_first "job-0" (db (after_task tools_report))
              = Some (first_row (after_task tools_report)))
    by (vm_compute; reflexivity).
  split; [exact N|]. split; [exact Q|].
  destruct (delete_job_removes_record_and_files reading_env "job-0"
              (after_task tools_report) (first_row (after_task tools_report))
              N Q) as (_ & _ & _ & _ & _ & G & _).
  exact G.
Defined.

(** X9.  Deleting the job an upload has just created restores the job
    table; the files go as well when their paths were not there before.
    The message the upload enqueued stays, and a task run for it finds no
    job and does nothing: it launches no tool and changes no row. *)
Theorem upload_then_delete_restores_table
        (E E' : env) (name p : string) (w w1 : world) (resp : json) :
  upload_project E (Some name) w = (Ok resp, w1) ->
  db (snd (delete_job (uuid4_at E (uuid_draws w)) w1)) = db w /\
  queue (snd (delete_job (uuid4_at E (uuid_draws w)) w1))
  = queue w ++ [(uuid4_at E (uuid_draws w),
                 extracted_path (uuid4_at E (uuid_draws w)))] /\
  (~ In (archive_path (uuid4_at E (uuid_draws w)) name) (written w) ->
   ~ In (extracted_path (uuid4_at E (uuid_draws w))) (written w) ->
   written (snd (delete_job (uuid4_at E (uuid_draws w)) w1)) = written w) /\
  run_scan_task E' (uuid4_at E (uuid_draws w)) p
                (snd (delete_job (uuid4_at E (uuid_draws w)) w1))
  = (Ok tt, snd (delete_job (uuid4_at E (uuid_draws w)) w1)).
Proof.
  intros U.
  destruct (upload_project_cases E (Some name) w)
    as [(_ & msg & U')|
        (name' & [= <-] & _ & [(e & _ & U')|[(_ & _ & U')|(_ & X & U')]])];
    rewrite U' in U; try discriminate.
  apply pair_equal_spec in U. destruct U as (_ & <-).
  pose proof (unused_job_id_query _ _ X) as Q0.
  assert (Q : query_first (uuid4_at E (uuid_draws w))
                          (db w ++ [uploaded_row E name w])
              = Some (uploaded_row E name w))
    by (apply query_first_app_new; [exact Q0 | reflexivity]).
  assert (D : db_delete (uploaded_row E name w)
                        (db w ++ [uploaded_row E name w]) = db w).
  { unfold db_delete. rewrite filter_app. cbn [filter uploaded_row id].
    rewrite Z.eqb_refl. cbn [negb]. rewrite app_nil_r.
    apply filter_keeps_all. intros r I.
    destruct (Z.eqb_spec (id r) (next_id (db w))) as [H|]; [|reflexivity].
    exfalso. apply (next_id_fresh (db w)). rewrite <- H. now apply in_map. }
  unfold run_scan_task, delete_job. cbn [db]. rewrite Q.
  cbn [snd db queue written set_db remove_job_files remove_path]. rewrite D, Q0.
  repeat split.
  intros Na Ne. cbn [uploaded_row filename].
  rewrite !filter_app. cbn [filter].
  fold (archive_path (uuid4_at E (uuid_draws w)) name).
  fold (extracted_path (uuid4_at E (uuid_draws w))).
  rewrite !String.eqb_refl. cbn [negb filter].
  destruct (String.eqb (extracted_path (uuid4_at E (uuid_draws w)))
                       (archive_path (uuid4_at E (uuid_draws w)) name));
    cbn [negb filter]; rewrite ?String.eqb_refl; cbn [negb filter app];
    rewrite ?app_nil_r;
    (rewrite (filter_keeps_all _ (written w));
     [apply filter_keeps_all|]; intros x I;
     apply negb_true_iff, String.eqb_neq; intros ->;
     [apply Ne|apply Na]; try exact I).
  all: apply filter_In in I; apply I.
Qed.

Lemma upload_then_delete_restores_table_witness :
  upload_project (sample_env false tools_report) (Some "project.zip")
                 empty_world
  = (Ok (JObj [("job_id", JStr "job-0"); ("status", JStr "pending")]),
     after_upload) /\
  db (snd (delete_job (uuid4_at (sample_env false tools_report)
                                (uuid_draws empty_world)) after_upload))
  = db empty_world.
Proof.
  assert (U : upload_project (sample_env false tools_report)
                             (Some "project.zip") empty_world
              = (Ok (JObj [("job_id", JStr "job-0");
                           ("status", JStr "pending")]), after_upload))
    by (vm_compute; reflexivity).
  split; [exact U|].
  destruct (upload_then_delete_restores_table
              (sample_env false tools_report) (sample_env false tools_report)
              "project.zip" "uploads/job-0_extracted"
              empty_world after_upload _ U) as (D & _).
  exact D.
Defined.

(** The loop of [delete_all_jobs] over a list of jobs. *)
Lemma delete_loop_effect (jobs : list Job) :
  forall w,
    let w' := fold_left
                (fun w job =>
                   set_db (db_delete job (db (remove_job_files (job_id job) job w)))
                          (remove_job_files (job_id job) job w))
                jobs w in
    queue w' = queue w /\
    (forall r, In r (db w') <->
               In r (db w) /\ forall j, In j jobs -> id r <> id j) /\
    (forall p, In p (written w') <->
               In p (written w) /\
               forall j, In j jobs ->
                         p <> archive_path (job_id j) (filename j) /\
                         p <> extracted_path (job_id j)).
Proof.
  induction jobs as [|job jobs IH]; intros w; cbn [fold_left].
  - cbn. repeat split; try tauto; intros [H _]; exact H.
  - specialize (IH (set_db (db_delete job
                              (db (remove_job_files (job_id job) job w)))
                           (remove_job_files (job_id job) job w))).
    cbn zeta in IH. destruct IH as (Q & D & F). cbn zeta.
    split; [rewrite Q; reflexivity|]. split.
    + intros r. rewrite D. cbn [db set_db].
      change (db (remove_job_files (job_id job) job w)) with (db w).
      rewrite in_db_delete. cbn [In]. split.
      * intros ((I & N) & H). split; [exact I|]. intros j [<-|Ij]; auto.
      * intros (I & H). repeat split; auto.
    + intros p. rewrite F.
      change (written (set_db _ (remove_job_files (job_id job) job w)))
        with (written (remove_job_files (job_id job) job w)).
      rewrite in_remove_job_files. cbn [In]. split.
      * intros ((I & N) & H). split; [exact I|]. intros j [<-|Ij]; auto.
      * intros (I & H).
        split; [split; [exact I | apply (H job); left; reflexivity]|].
        intros j Ij. apply H. right. exact Ij.
Qed.

(** X10.  [delete_all_jobs] empties the job table, reports the number of
    rows it held, removes the archive and the extracted tree of every job
    it deleted, and leaves the queue as it is. *)
Theorem delete_all_jobs_empties_table (w : world) :
  exists resp,
    fst (delete_all_jobs w) = Ok resp /\
    py_get resp "deleted_count" JNull
    = Ok (JInt (Z.of_nat (List.length (db w)))) /\
    db (snd (delete_all_jobs w)) = [] /\
    queue (snd (delete_all_jobs w)) = queue w /\
    forall j, In j (db w) ->
              ~ In (archive_path (job_id j) (filename j))
                   (written (snd (delete_all_jobs w))) /\
              ~ In (extracted_path (job_id j))
                   (written (snd (delete_all_jobs w))).
Proof.
  unfold delete_all_jobs. destruct (db w) as [|j0 rows] eqn:D.
  - cbn [List.length Nat.eqb fst snd]. eexists. split; [reflexivity|].
    split; [reflexivity|]. split; [exact D|]. split; [reflexivity|].
    intros j [].
  - cbn [List.length Nat.eqb fst snd]. eexists. split; [reflexivity|].
    split; [reflexivity|].
    destruct (delete_loop_effect (j0 :: rows) w) as (Q & R & F).
    cbn zeta in Q, R, F. rewrite D in R.
    split; [|split; [exact Q|]].
    + destruct (db (fold_left _ (j0 :: rows) w)) as [|r rest] eqn:X;
        [reflexivity|].
      exfalso. destruct (proj1 (R r) (or_introl eq_refl)) as (I & H).
      exact (H r I eq_refl).
    + intros j1 I. split; intros H; apply F in H; destruct H as (_ & H);
        destruct (H j1 I) as (Ha & He); congruence.
Qed.

(** ** Reading back what was stored *)

(** X11.  A job can be read as soon as its upload returned: [get_job]
    answers with the uploaded filename, status pending, no summary, the
    empty result, and no completion time. *)
Theorem upload_then_get_job
        (E E' : env) (file_name : option string) (w w1 : world) (resp : json) :
  upload_project E file_name w = (Ok resp, w1) ->
  json_loads E' (json_dumps (JObj [])) = Some (JObj []) ->
  exists name,
    file_name = Some name /\
    get_job E' (uuid4_at E (uuid_draws w)) w1
    = (Ok (JObj [("job_id", JStr (uuid4_at E (uuid_draws w)));
                 ("filename", JStr name);
                 ("status", JStr "pending");
                 ("summary", JNull);
                 ("result", JObj []);
                 ("created_at", JInt (utcnow_at E (clock_reads w)));
                 ("updated_at", JInt (utcnow_at E (S (clock_reads w))));
                 ("completed_at", JNull)]), w1).
Proof.
  intros U L.
  destruct (upload_project_cases E file_name w)
    as [(_ & msg & U')|
        (name & -> & _ & [(e & _ & U')|[(_ & _ & U')|(_ & X & U')]])];
    rewrite U' in U; try discriminate.
  apply pair_equal_spec in U. destruct U as (_ & <-).
  exists name. split; [reflexivity|].
  unfold get_job. cbn [db].
  rewrite (query_first_app_new _ _ (uploaded_row E name w)
             (unused_job_id_query _ _ X) eq_refl).
  cbn [uploaded_row result]. rewrite L. reflexivity.
Qed.

Lemma upload_then_get_job_witness :
  upload_project (sample_env false tools_report) (Some "project.zip")
                 empty_world
  = (Ok (JObj [("job_id", JStr "job-0"); ("status", JStr "pending")]),
     after_upload) /\
  json_loads reading_env (json_dumps (JObj [])) = Some (JObj []) /\
  exists name,
    Some "project.zip" = Some name /\
    get_job reading_env
            (uuid4_at (sample_env false tools_report) (uuid_draws empty_world))
            after_upload
    = (Ok (JObj [("job_id",
                  JStr (uuid4_at (sample_env false tools_report)
                                 (uuid_draws empty_world)));
                 ("filename", JStr name);
                 ("status", JStr "pending");
                 ("summary", JNull);
                 ("result", JObj []);
                 ("created_at",
                  JInt (utcnow_at (sample_env false tools_report)
                                  (clock_reads empty_world)));
                 ("updated_at",
                  JInt (utcnow_at (sample_env false tools_report)
                                  (S (clock_reads empty_world))));
                 ("completed_at", JNull)]), after_upload).
Proof.
  assert (U : upload_project (sample_env false tools_report)
                             (Some "project.zip") empty_world
              = (Ok (JObj [("job_id", JStr "job-0");
                           ("status", JStr "pending")]), after_upload))
    by (vm_compute; reflexivity).
  assert (L : json_loads reading_env (json_dumps (JObj [])) = Some (JObj []))
    by (vm_compute; reflexivity).
  split; [exact U|]. split; [exact L|].
  exact (upload_then_get_job (sample_env false tools_report) reading_env
           (Some "project.zip") empty_world after_upload _ U L).
Defined.

(** X12.  After a task, [get_job] reports what the task stored: when the
    scan returned, status completed, the summary, both completion times and
    the scan's document; when the scan raised, status failed, the error
    document, and summary and completion time as they were.  The decoder
    has to read back the stored text. *)
Theorem get_job_after_task
        (E E' : env) (jid p : string) (w : world) (job : Job) :
  query_first jid (db w) = Some job ->
  match fst (scan_project E p w) with
  | Ok doc =>
      json_loads E' (json_dumps doc) = Some doc ->
      fst (get_job E' jid (snd (run_scan_task E jid p w)))
      = Ok (JObj [("job_id", JStr (job_id job));
                  ("filename", JStr (filename job));
                  ("status", JStr "completed");
                  ("summary", JStr "Scan finished with 0 issues");
                  ("result", doc);
                  ("created_at", json_of_time (created_at job));
                  ("updated_at", JInt (utcnow_at E (S (S (clock_reads w)))));
                  ("completed_at", JInt (utcnow_at E (S (clock_reads w))))])
  | Raise e =>
      json_loads E' (json_dumps (JObj [("error", JStr (exn_msg e));
                                       ("trace", JStr (format_exc E e))]))
      = Some (JObj [("error", JStr (exn_msg e));
                    ("trace", JStr (format_exc E e))]) ->
      fst (get_job E' jid (snd (run_scan_task E jid p w)))
      = Ok (JObj [("job_id", JStr (job_id job));
                  ("filename", JStr (filename job));
                  ("status", JStr "failed");
                  ("summary", json_of_text (summary job));
                  ("result", JObj [("error", JStr (exn_msg e));
                                   ("trace", JStr (format_exc E e))]);
                  ("created_at", json_of_time (created_at job));
                  ("updated_at", JInt (utcnow_at E (S (clock_reads w))));
                  ("completed_at", json_of_time (completed_at job))])
  end.
Proof.
  intros Q. destruct (traces_scan_project E p) as (r & H & _).
  unfold run_scan_task. rewrite Q.
  unfold scan_and_save, try_except, mark_ongoing, bind, utcnow, commit, ret.
  rewrite !H. cbn [fst].
  destruct r as [doc|e].
  - destruct (scan_project_ok E p w doc _ (H w)) as (b & s & d & l & ->).
    intros L. rewrite save_result_effect. unfold get_job.
    cbn [snd db set_db tick add_calls clock_reads].
    erewrite query_first_flush;
      [|eapply query_first_flush; [exact Q| |]| |]; try reflexivity.
    fields. rewrite L. reflexivity.
  - intros L. rewrite save_failure_effect. unfold get_job.
    cbn [snd db set_db tick add_calls clock_reads].
    erewrite query_first_flush;
      [|eapply query_first_flush; [exact Q| |]| |]; try reflexivity.
    fields. rewrite L. reflexivity.
Qed.

Lemma get_job_after_task_witness :
  query_first "job-0" (db (delivered after_upload))
  = Some (first_row after_upload) /\
  json_loads reading_env (json_dumps stored_document) = Some stored_document /\
  fst (scan_project (sample_env false tools_report)
                    "uploads/job-0_extracted" (delivered after_upload))
  = Ok stored_document /\
  match fst (scan_project (sample_env false tools_report)
                          "uploads/job-0_extracted" (delivered after_upload)) with
  | Ok doc =>
      json_loads reading_env (json_dumps doc) = Some doc ->
      fst (get_job reading_env "job-0"
             (snd (run_scan_task (sample_env false tools_report) "job-0"
                                 "uploads/job-0_extracted"
                                 (delivered after_upload))))
      = Ok (JObj [("job_id", JStr (job_id (first_row after_upload)));
                  ("filename", JStr (filename (first_row after_upload)));
                  ("status", JStr "completed");
                  ("summary", JStr "Scan finished with 0 issues");
                  ("result", doc);
                  ("created_at",
                   json_of_time (created_at (first_row after_upload)));
                  ("updated_at",
                   JInt (utcnow_at (sample_env false tools_report)
                           (S (S (clock_reads (delivered after_upload))))));
                  ("completed_at",
                   JInt (utcnow_at (sample_env false tools_report)
                           (S (clock_reads (delivered after_upload)))))])
  | Raise e =>
      json_loads reading_env
                 (json_dumps
                    (JObj [("error", JStr (exn_msg e));
                           ("trace",
                            JStr (format_exc (sample_env false tools_report) e))]))
      = Some (JObj [("error", JStr (exn_msg e));
                    ("trace",
                     JStr (format_exc (sample_env false tools_report) e))]) ->
      fst (get_job reading_env "job-0"
             (snd (run_scan_task (sample_env false tools_report) "job-0"
                                 "uploads/job-0_extracted"
                                 (delivered after_upload))))
      = Ok (JObj [("job_id", JStr (job_id (first_row after_upload)));
                  ("filename", JStr (filename (first_row after_upload)));
                  ("status", JStr "failed");
                  ("summary", json_of_text (summary (first_row after_upload)));
                  ("result",
                   JObj [("error", JStr (exn_msg e));
                         ("trace",
                          JStr (format_exc (sample_env false tools_report) e))]);
                  ("created_at",
                   json_of_time (created_at (first_row after_upload)));
                  ("updated_at",
                   JInt (utcnow_at (sample_env false tools_report)
                           (S (clock_reads (delivered after_upload)))));
                  ("completed_at",
                   json_of_time (completed_at (first_row after_upload)))])
  end.
Proof.
  split; [vm_compute; reflexivity|]. split; [vm_compute; reflexivity|].
  split; [vm_compute; reflexivity|].
  apply (get_job_after_task (sample_env false tools_report) reading_env
           "job-0" "uploads/job-0_extracted" (delivered after_upload)
           (first_row after_upload)).
  vm_compute; reflexivity.
Defined.

(** ** The running system, once more *)

(** X13.  In every reachable system the keys are unique: no two rows share
    a [job_id] or a primary key, and no job has two messages waiting. *)
Theorem reachable_keys_are_unique (s : system) :
  reachable s ->
  NoDup (map job_id (db (sys_world s))) /\
  NoDup (map id (db (sys_world s))) /\
  NoDup (map fst (queue (sys_world s))).
Proof.
  intros R. apply reachable_invariant in R. destruct R. auto.
Qed.

Lemma reachable_keys_are_unique_witness :
  reachable (mkSystem (after_task tools_report) []) /\
  NoDup (map job_id (db (sys_world (mkSystem (after_task tools_report) [])))).
Proof.
  split; [apply after_task_reachable|].
  apply (reachable_keys_are_unique (mkSystem (after_task tools_report) [])).
  apply after_task_reachable.
Defined.

Lemma queued_job_found (s : system) (t : string * string) :
  invariant s ->
  In t (queue (sys_world s)) ->
  exists j, query_first (fst t) (db (sys_world s)) = Some j /\ pending_shape j.
Proof.
  intros Inv It. destruct (inv_queued s Inv t It) as (j & Ij & Hj & _).
  destruct (query_first_some (fst t) _ j Ij Hj) as (j' & Q).
  exists j'. split; [exact Q|]. eapply queued_job_pending; eauto.
Qed.

(** X14.  In every reachable system each waiting message names a job that
    is in the table and still pending, with the placeholder result, no
    summary and no completion time; no message outlives its job's start. *)
Theorem reachable_messages_name_pending_jobs (s : system) (t : string * string) :
  reachable s ->
  In t (queue (sys_world s)) ->
  exists j,
    query_first (fst t) (db (sys_world s)) = Some j /\
    status j = "pending" /\
    result j = Some (json_dumps (JObj [])) /\
    summary j = None /\
    completed_at j = None.
Proof.
  intros R It. apply reachable_invariant in R.
  destruct (queued_job_found s t R It) as (j & Q & P). exists j. split; auto.
Qed.

Lemma reachable_messages_name_pending_jobs_witness :
  reachable (mkSystem after_upload []) /\
  In ("job-0", "uploads/job-0_extracted")
     (queue (sys_world (mkSystem after_upload []))) /\
  exists j,
    query_first (fst ("job-0", "uploads/job-0_extracted"))
                (db (sys_world (mkSystem after_upload []))) = Some j /\
    status j = "pending" /\
    result j = Some (json_dumps (JObj [])) /\
    summary j = None /\
    completed_at j = None.
Proof.
  split; [apply after_upload_reachable|].
  split; [vm_compute; left; reflexivity|].
  apply (reachable_messages_name_pending_jobs (mkSystem after_upload [])
           ("job-0", "uploads/job-0_extracted")).
  - apply after_upload_reachable.
  - vm_compute; left; reflexivity.
Defined.

(** X15.  In every system reached with each message delivered once, a
    task that is run on the state for a waiting message and returns leaves
    the job of that message completed or failed, with a non-empty result.
    Nothing is said of a task that does not return. *)
Theorem queued_task_that_returns_ends_terminal
        (s : system) (t : string * string) (E : env) (w' : world) :
  reachable s ->
  In t (queue (sys_world s)) ->
  run_scan_task E (fst t) (snd t) (sys_world s) = (Ok tt, w') ->
  exists job',
    query_first (fst t) (db w') = Some job' /\
    is_terminal (status job') = true /\
    result_is_empty (result job') = false.
Proof.
  intros R It T. apply reachable_invariant in R.
  destruct (queued_job_found s t R It) as (j & Q & _).
  destruct (run_scan_task_overwrites E (fst t) (snd t) (sys_world s) j Q)
    as (job' & Q' & [(doc & w1 & S & St & Re)|(e & w1 & S & St & Re)]);
    rewrite T in Q'; cbn [snd] in Q';
    exists job'; (split; [exact Q'|]); rewrite St, Re; (split; [reflexivity|]).
  - destruct (scan_project_ok E _ _ doc w1 S) as (b & s0 & d & l & ->).
    apply dumps_object_nonempty.
  - apply dumps_object_nonempty.
Qed.

Lemma queued_task_that_returns_ends_terminal_witness :
  reachable (mkSystem after_upload []) /\
  In ("job-0", "uploads/job-0_extracted")
     (queue (sys_world (mkSystem after_upload []))) /\
  fst (run_scan_task (sample_env false bandit_missing) "job-0"
                     "uploads/job-0_extracted" after_upload) = Ok tt /\
  exists job',
    query_first "job-0"
                (db (snd (run_scan_task (sample_env false bandit_missing)
                            "job-0" "uploads/job-0_extracted" after_upload)))
    = Some job' /\
    is_terminal (status job') = true /\
    result_is_empty (result job') = false.
Proof.
  split; [apply after_upload_reachable|].
  split; [vm_compute; left; reflexivity|].
  assert (T : fst (run_scan_task (sample_env false bandit_missing) "job-0"
                                 "uploads/job-0_extracted" after_upload)
              = Ok tt) by (vm_compute; reflexivity).
  split; [exact T|].
  apply (queued_task_that_returns_ends_terminal
           (mkSystem after_upload []) ("job-0", "uploads/job-0_extracted")
           (sample_env false bandit_missing)).
  - apply after_upload_reachable.
  - vm_compute; left; reflexivity.
  - cbn [fst snd sys_world]. rewrite <- T. apply surjective_pairing.
Defined.

(** ** The score, once more *)

Lemma scores_are_clamped (doc : json) (sc : scores) :
  generate_html_report_scores doc = Ok sc ->
  exists s, score sc = Qmax 0 (Qmin 10 s).
Proof.
  unfold generate_html_report_scores, and_then.
  repeat match goal with
         | |- context [match ?x with
                       | Ok _ => _
                       | Raise _ => _
                       end] => destruct x; try discriminate
         end.
  intros [= <-]. eexists. reflexivity.
Qed.

(** X16.  Whenever the report computes a score, the score lies between 0
    and 10. *)
Theorem score_within_bounds (doc : json) (sc : scores) :
  generate_html_report_scores doc = Ok sc ->
  (0 <= score sc)%Q /\ (score sc <= 10)%Q.
Proof.
  intros H. destruct (scores_are_clamped doc sc H) as (s & ->). split.
  - apply Q.le_max_l.
  - apply Q.max_lub; [discriminate | apply Q.le_min_l].
Qed.

Lemma score_within_bounds_witness :
  generate_html_report_scores audited_document
  = Ok (mkScores 3 0 3 (Qmax 0 (Qmin 10 (inject_Z 10 - inject_Z (0 * 3)
                                          - inject_Z (3 * 1)
                                          - inject_Z (3 - 0 - 3) * (1 # 2))))) /\
  (0 <= score (mkScores 3 0 3
                 (Qmax 0 (Qmin 10 (inject_Z 10 - inject_Z (0 * 3)
                                   - inject_Z (3 * 1)
                                   - inject_Z (3 - 0 - 3) * (1 # 2))))))%Q /\
  (score (mkScores 3 0 3
            (Qmax 0 (Qmin 10 (inject_Z 10 - inject_Z (0 * 3)
                              - inject_Z (3 * 1)
                              - inject_Z (3 - 0 - 3) * (1 # 2))))) <= 10)%Q.
Proof.
  split; [vm_compute; reflexivity|].
  apply (score_within_bounds audited_document).
  vm_compute; reflexivity.
Defined.

Lemma count_severity_objects (severity : string) (rs : list json) :
  forallb is_object rs = true ->
  count_severity severity rs
  = Ok (List.length (filter (severity_is severity) rs)).
Proof.
  induction rs as [|r rs IH]; cbn [forallb count_severity filter];
    [reflexivity|].
  intros H. apply andb_prop in H. destruct H as (O & H).
  rewrite (IH H). destruct r; try discriminate.
  unfold has_severity, py_get, and_then, severity_is.
  destruct (assoc "issue_severity" fields) as [[]|]; try reflexivity.
  destruct (String.eqb s severity); reflexivity.
Qed.

Lemma count_severity_malformed (severity : string) (rs : list json) (r : json) :
  In r rs -> is_object r = false ->
  count_severity severity rs
  = Raise (Exn "AttributeError" "object has no attribute 'get'").
Proof.
  induction rs as [|x rs IH]; [intros []|].
  intros [->|I] O; cbn [count_severity]; unfold and_then.
  - destruct r; try discriminate; reflexivity.
  - destruct (has_severity severity x) as [hit|e] eqn:H.
    + now rewrite (IH I O).
    + unfold has_severity, and_then, py_get in H.
      destruct x; try (inversion H; reflexivity).
      destruct (assoc "issue_severity" fields); discriminate.
Qed.

(** X17.  For a stored scan document whose bandit and semgrep entries
    carry result lists, all bandit findings being objects, the report
    counts the findings of both lists as total, bandit's HIGH findings as
    critical and bandit's MEDIUM findings as high, and scores 10 minus 3
    per critical, 1 per high and one half per other finding, clamped to
    0..10; semgrep findings always count one half each. *)
Theorem score_of_scan_document
        (fb fs : list (string * json)) (rs ss : list json) (d c : json) :
  assoc "results" fb = Some (JArr rs) ->
  assoc "results" fs = Some (JArr ss) ->
  forallb is_object rs = true ->
  generate_html_report_scores (scan_document (JObj fb) (JObj fs) d c)
  = Ok (mkScores
          (Z.of_nat (List.length rs) + Z.of_nat (List.length ss) + 0)
          (Z.of_nat (List.length (filter (severity_is "HIGH") rs)))
          (Z.of_nat (List.length (filter (severity_is "MEDIUM") rs)))
          (Qmax 0
             (Qmin 10
                (inject_Z 10
                 - inject_Z (Z.of_nat (List.length
                                         (filter (severity_is "HIGH") rs)) * 3)
                 - inject_Z (Z.of_nat (List.length
                                         (filter (severity_is "MEDIUM") rs)) * 1)
                 - inject_Z (Z.of_nat (List.length rs)
                             + Z.of_nat (List.length ss) + 0
                             - Z.of_nat (List.length
                                           (filter (severity_is "HIGH") rs))
                             - Z.of_nat (List.length
                                           (filter (severity_is "MEDIUM") rs)))
                   * (1 # 2))))).
Proof.
  intros B S O.
  unfold generate_html_report_scores, scan_document.
  cbn [py_get assoc String.eqb Ascii.eqb Bool.eqb and_then].
  rewrite B, S. cbn [and_then py_len py_iter List.length].
  rewrite !(count_severity_objects _ rs O). reflexivity.
Qed.

Lemma score_of_scan_document_witness :
  assoc "results" [("errors", JArr []);
                   ("results", JArr [medium_issue; medium_issue; medium_issue])]
  = Some (JArr [medium_issue; medium_issue; medium_issue]) /\
  assoc "results" [("errors", JArr []); ("results", JArr [])]
  = Some (JArr []) /\
  forallb is_object [medium_issue; medium_issue; medium_issue] = true /\
  exists sc,
    generate_html_report_scores
      (scan_document three_medium semgrep_clean no_manifest_result (JArr []))
    = Ok sc /\
    total_issues sc = 3%Z /\ high_issues sc = 3%Z /\ (score sc == 7)%Q.
Proof.
  split; [reflexivity|]. split; [reflexivity|]. split; [reflexivity|].
  eexists. split.
  - apply (score_of_scan_document
             [("errors", JArr []);
              ("results", JArr [medium_issue; medium_issue; medium_issue])]
             [("errors", JArr []); ("results", JArr [])]
             [medium_issue; medium_issue; medium_issue] []
             no_manifest_result (JArr [])); reflexivity.
  - repeat split.
Defined.

(** X18.  A report that finds no findings to read scores a full 10 with no
    issues.  That is so for every document without the keys
    [static_code_analysis] and [dependency_analysis], such as the error
    document of a failed job and the placeholder of an unfinished one, and
    for every scan document whose bandit and semgrep entries have no
    [results], such as the failure entries of both scanners. *)
Theorem report_without_findings_scores_ten :
  (forall fields : list (string * json),
      assoc "static_code_analysis" fields = None ->
      assoc "dependency_analysis" fields = None ->
      exists sc,
        generate_html_report_scores (JObj fields) = Ok sc /\
        total_issues sc = 0%Z /\ (score sc == 10)%Q) /\
  (forall (fb fs : list (string * json)) (d c : json),
      assoc "results" fb = None ->
      assoc "results" fs = None ->
      exists sc,
        generate_html_report_scores (scan_document (JObj fb) (JObj fs) d c)
        = Ok sc /\
        total_issues sc = 0%Z /\ (score sc == 10)%Q).
Proof.
  split.
  - intros fields S D. unfold generate_html_report_scores.
    cbn [py_get]. rewrite S, D. eexists. split; [reflexivity|].
    split; reflexivity.
  - intros fb fs d c B S. unfold generate_html_report_scores, scan_document.
    cbn [py_get assoc String.eqb Ascii.eqb Bool.eqb and_then].
    rewrite B, S. eexists. split; [reflexivity|]. split; reflexivity.
Qed.

Lemma report_without_findings_scores_ten_witness :
  (exists sc,
      generate_html_report_scores
        (JObj [("error", JStr "[Errno 2] No such file or directory");
               ("trace", JStr "Traceback (most recent call last)")]) = Ok sc /\
      total_issues sc = 0%Z /\ (score sc == 10)%Q) /\
  (exists sc,
      generate_html_report_scores
        (scan_document (JObj [("error", JStr "Bandit scan failed")])
                       (JObj [("error", JStr "Semgrep scan failed")])
                       no_manifest_result (JArr [])) = Ok sc /\
      total_issues sc = 0%Z /\ (score sc == 10)%Q).
Proof.
  split.
  - apply (proj1 report_without_findings_scores_ten); reflexivity.
  - apply (proj2 report_without_findings_scores_ten); reflexivity.
Defined.

(** X19.  One bandit finding that is not an object makes the whole report
    fail with an [AttributeError]; the finding is not skipped. *)
Theorem report_raises_on_malformed_finding
        (fb fs : list (string * json)) (rs ss : list json) (d c r : json) :
  assoc "results" fb = Some (JArr rs) ->
  assoc "results" fs = Some (JArr ss) ->
  In r rs -> is_object r = false ->
  generate_html_report_scores (scan_document (JObj fb) (JObj fs) d c)
  = Raise (Exn "AttributeError" "object has no attribute 'get'").
Proof.
  intros B S I O.
  unfold generate_html_report_scores, scan_document.
  cbn [py_get assoc String.eqb Ascii.eqb Bool.eqb and_then].
  rewrite B, S. cbn [and_then py_len py_iter List.length].
  rewrite (count_severity_malformed "HIGH" rs r I O). reflexivity.
Qed.

Lemma report_raises_on_malformed_finding_witness :
  assoc "results" [("results", JArr [medium_issue; JStr "B104"])]
  = Some (JArr [medium_issue; JStr "B104"]) /\
  assoc "results" [("results", JArr [])] = Some (JArr []) /\
  In (JStr "B104") [medium_issue; JStr "B104"] /\
  is_object (JStr "B104") = false /\
  generate_html_report_scores
    (scan_document (JObj [("results", JArr [medium_issue; JStr "B104"])])
                   (JObj [("results", JArr [])]) no_manifest_result (JArr []))
  = Raise (Exn "AttributeError" "object has no attribute 'get'").
Proof.
  split; [reflexivity|]. split; [reflexivity|].
  split; [right; left; reflexivity|]. split; [reflexivity|].
  apply (report_raises_on_malformed_finding
           [("results", JArr [medium_issue; JStr "B104"])]
           [("results", JArr [])] [medium_issue; JStr "B104"] []
           no_manifest_result (JArr []) (JStr "B104")); try reflexivity.
  right; left; reflexivity.
Defined.

(** ** The logger *)

Lemma last_items_short {A : Type} (n : nat) (l : list A) :
  List.length l <= n -> last_items n l = l.
Proof.
  intros H. unfold last_items. destruct (Nat.eqb n 0); [reflexivity|].
  replace (List.length l - n) with 0 by lia. reflexivity.
Qed.

Lemma length_last_items {A : Type} (n : nat) (l : list A) :
  0 < n -> List.length (last_items n l) = Nat.min n (List.length l).
Proof.
  intros H. unfold last_items.
  destruct (Nat.eqb_spec n 0); [lia|]. rewrite length_skipn. lia.
Qed.

Lemma last_items_absorb {A : Type} (n : nat) (l r : list A) :
  0 < n -> last_items n (last_items n l ++ r) = last_items n (l ++ r).
Proof.
  intros H. destruct (Nat.le_gt_cases (List.length l) n) as [S|L].
  - now rewrite (last_items_short n l S).
  - unfold last_items. destruct (Nat.eqb_spec n 0); [lia|].
    rewrite !length_app, length_skipn.
    replace (List.length l - (List.length l - n) + List.length r - n)
      with (List.length r) by lia.
    replace (List.length l + List.length r - n)
      with (List.length r + (List.length l - n)) by lia.
    rewrite <- skipn_skipn, (skipn_app (List.length l - n) l r).
    replace (List.length l - n - List.length l) with 0 by lia.
    reflexivity.
Qed.

(** What one call of [log] keeps in memory. *)
Lemma log_buffer (ts : string) (writable : bool) (level source message : string)
      (data : option (list (string * json)))
      (self : BackendLogger) (file : option (list string)) :
  0 < max_logs self ->
  logs (fst (log ts writable level source message data (self, file)))
  = last_items (max_logs self)
               (logs self ++ [log_entry ts level source message data]) /\
  max_logs (fst (log ts writable level source message data (self, file)))
  = max_logs self.
Proof.
  intros H. unfold log. cbn [fst logs max_logs]. split; [|reflexivity].
  destruct (Nat.ltb_spec (max_logs self)
              (List.length (logs self
                              ++ [log_entry ts level source message data])));
    [reflexivity|].
  symmetry. now apply last_items_short.
Qed.

(** X20.  With a positive [max_logs], as the constructor sets it, a call of
    [log] leaves at most [max_logs] entries in memory, the new entry last,
    the others being the most recent earlier ones in their order. *)
Theorem log_keeps_buffer_bounded
        (ts : string) (writable : bool) (level source message : string)
        (data : option (list (string * json)))
        (self : BackendLogger) (file : option (list string)) :
  0 < max_logs self ->
  List.length
    (logs (fst (log ts writable level source message data (self, file))))
  <= max_logs self /\
  last (logs (fst (log ts writable level source message data (self, file))))
       JNull
  = log_entry ts level source message data /\
  exists dropped,
    logs self ++ [log_entry ts level source message data]
    = dropped
        ++ logs (fst (log ts writable level source message data (self, file))).
Proof.
  intros H.
  destruct (log_buffer ts writable level source message data self file H)
    as (-> & _).
  split; [rewrite length_last_items by assumption; lia|].
  unfold last_items. destruct (Nat.eqb_spec (max_logs self) 0); [lia|].
  rewrite length_app. cbn [List.length].
  rewrite skipn_app.
  replace (List.length (logs self) + 1 - max_logs self
           - List.length (logs self)) with 0 by lia.
  cbn [skipn]. split; [apply last_last|].
  exists (firstn (List.length (logs self) + 1 - max_logs self) (logs self)).
  now rewrite app_assoc, firstn_skipn.
Qed.

Lemma log_keeps_buffer_bounded_witness :
  0 < max_logs (new_logger "communication.log") /\
  List.length
    (logs (fst (log "2024-01-01T00:00:00" true "INFO" "BACKEND"
                    "Root endpoint accessed" None
                    (new_logger "communication.log", None))))
  <= max_logs (new_logger "communication.log").
Proof.
  split; [cbn; lia|].
  apply (log_keeps_buffer_bounded "2024-01-01T00:00:00" true "INFO" "BACKEND"
           "Root endpoint accessed" None (new_logger "communication.log") None).
  cbn; lia.
Defined.

Lemma log_all_cons (c : log_call_args) (cs : list log_call_args)
      (st : BackendLogger * option (list string)) :
  log_all (c :: cs) st
  = log_all cs (log (call_timestamp c) (call_writable c) (call_level c)
                    (call_source c) (call_message c) (call_data c) st).
Proof. reflexivity. Qed.

Lemma log_all_buffer (cs : list log_call_args) :
  forall (self : BackendLogger) (file : option (list string)) (l : list json),
    0 < max_logs self ->
    logs self = last_items (max_logs self) l ->
    logs (fst (log_all cs (self, file)))
    = last_items (max_logs self) (l ++ map entry_of_call cs) /\
    max_logs (fst (log_all cs (self, file))) = max_logs self.
Proof.
  induction cs as [|c cs IH]; intros self file l H L.
  - cbn [log_all fold_left map fst]. rewrite app_nil_r. auto.
  - rewrite log_all_cons. cbn [map].
    destruct (log_buffer (call_timestamp c) (call_writable c) (call_level c)
                (call_source c) (call_message c) (call_data c) self file H)
      as (B & M).
    destruct (log (call_timestamp c) (call_writable c) (call_level c)
                  (call_source c) (call_message c) (call_data c) (self, file))
      as [self1 file1].
    cbn [fst] in B, M.
    destruct (IH self1 file1 (l ++ [entry_of_call c])) as (R & M').
    + rewrite M. exact H.
    + rewrite B, M, L. now apply last_items_absorb.
    + rewrite R, M', M, <- app_assoc. auto.
Qed.

(** X21.  After any sequence of [log] calls on a fresh logger the memory
    buffer holds the entries of the last 1000 calls, in call order, and
    nothing else. *)
Theorem logger_keeps_most_recent
        (name : string) (file : option (list string))
        (cs : list log_call_args) :
  get_logs (fst (log_all cs (new_logger name, file)))
  = skipn (List.length cs - 1000) (map entry_of_call cs) /\
  List.length (get_logs (fst (log_all cs (new_logger name, file))))
  = Nat.min 1000 (List.length cs).
Proof.
  destruct (log_all_buffer cs (new_logger name) file []) as (R & _).
  - cbn. lia.
  - reflexivity.
  - unfold get_logs. rewrite R. cbn [app new_logger max_logs].
    split.
    + unfold last_items. cbn [Nat.eqb]. now rewrite length_map.
    + rewrite length_last_items by lia. now rewrite length_map.
Qed.

(** X22.  The log file is not capped: after any sequence of [log] calls it
    holds its earlier lines followed by one line for every call whose write
    succeeded, in call order, however many calls there were; it is created
    by the first successful write. *)
Theorem log_file_keeps_every_written_entry
        (self : BackendLogger) (file : option (list string))
        (cs : list log_call_args) :
  snd (log_all cs (self, file))
  = match filter call_writable cs with
    | [] => file
    | written_calls =>
        Some (match file with
              | Some lines => lines
              | None => []
              end ++ map (fun c => json_dumps (entry_of_call c)) written_calls)
    end.
Proof.
  revert self file. induction cs as [|c cs IH]; intros self file;
    [reflexivity|].
  rewrite log_all_cons. cbn [filter].
  unfold log at 1. rewrite IH.
  destruct (call_writable c).
  - destruct (filter call_writable cs) as [|c' rest]; cbn [map].
    + reflexivity.
    + now rewrite <- app_assoc.
  - reflexivity.
Qed.

(** X23.  The log endpoints log their own access first: [DELETE /logs]
    leaves the buffer empty, the clearing entry included, and the file
    gone when it can be removed; a [GET /logs] that follows returns exactly
    one entry, the one for its own access. *)
Theorem logs_endpoint_after_clear
        (ts1 ts2 : string) (w1 removable w2 : bool)
        (self : BackendLogger) (file : option (list string)) :
  0 < max_logs self ->
  get_logs (fst (snd (clear_logs_endpoint ts1 w1 removable (self, file)))) = [] /\
  snd (snd (clear_logs_endpoint ts1 w1 true (self, file))) = None /\
  fst (get_logs_endpoint ts2 w2
         (snd (clear_logs_endpoint ts1 w1 removable (self, file))))
  = JObj [("logs",
           JArr [log_entry ts2 "INFO" "BACKEND" "Logs endpoint accessed" None]);
          ("total_logs", JInt 1)].
Proof.
  intros H. split; [reflexivity|]. split; [reflexivity|].
  unfold get_logs_endpoint, clear_logs_endpoint, clear_logs, info, get_logs,
    log.
  cbn [fst snd logs max_logs log_file app List.length].
  destruct (Nat.ltb_spec (max_logs self) 1); [lia | reflexivity].
Qed.

Lemma logs_endpoint_after_clear_witness :
  0 < max_logs (new_logger "communication.log") /\
  fst (get_logs_endpoint "2024-01-01T00:00:02" true
         (snd (clear_logs_endpoint "2024-01-01T00:00:01" true true
                 (new_logger "communication.log", Some ["earlier line"]))))
  = JObj [("logs",
           JArr [log_entry "2024-01-01T00:00:02" "INFO" "BACKEND"
                           "Logs endpoint accessed" None]);
          ("total_logs", JInt 1)].
Proof.
  split; [cbn; lia|].
  apply (logs_endpoint_after_clear "2024-01-01T00:00:01" "2024-01-01T00:00:02"
           true true true (new_logger "communication.log")
           (Some ["earlier line"])).
  cbn; lia.
Defined.

(** ** Listing and reports *)

(** X24.  The listing and the single read agree: for every job whose
    result text decodes, [get_all_jobs], which has one item per row, has
    an item with the same job_id, filename, status, summary and times as
    the answer of [get_job], and without the result. *)
Theorem listing_agrees_with_get_job
        (E : env) (jid : string) (w : world) (job : Job)
        (text : string) (doc : json) :
  query_first jid (db w) = Some job ->
  result job = Some text ->
  json_loads E text = Some doc ->
  exists fields items,
    fst (get_job E jid w) = Ok (JObj fields) /\
    assoc "result" fields = Some doc /\
    fst (get_all_jobs w) = Ok (JArr items) /\
    List.length items = List.length (db w) /\
    In (JObj (without_key "result" fields)) items /\
    assoc "result" (without_key "result" fields) = None.
Proof.
  intros Q T D. unfold get_job. rewrite Q, T, D.
  cbn [fst]. do 2 eexists. split; [reflexivity|]. split; [reflexivity|].
  split; [reflexivity|]. split; [apply length_map|]. split; [|reflexivity].
  apply in_map_iff. exists job. split; [reflexivity|].
  now apply query_first_in in Q.
Qed.

Lemma listing_agrees_with_get_job_witness :
  query_first "job-0" (db (after_task tools_report))
  = Some (first_row (after_task tools_report)) /\
  result (first_row (after_task tools_report))
  = Some (json_dumps stored_document) /\
  json_loads reading_env (json_dumps stored_document) = Some stored_document /\
  exists fields items,
    fst (get_job reading_env "job-0" (after_task tools_report))
    = Ok (JObj fields) /\
    assoc "result" fields = Some stored_document /\
    fst (get_all_jobs (after_task tools_report)) = Ok (JArr items) /\
    List.length items = List.length (db (after_task tools_report)) /\
    In (JObj (without_key "result" fields)) items /\
    assoc "result" (without_key "result" fields) = None.
Proof.
  assert (Q : query_first "job-0" (db (after_task tools_report))
              = Some (first_row (after_task tools_report)))
    by (vm_compute; reflexivity).
  assert (T : result (first_row (after_task tools_report))
              = Some (json_dumps stored_document))
    by (vm_compute; reflexivity).
  assert (D : json_loads reading_env (json_dumps stored_document)
              = Some stored_document)
    by (vm_compute; reflexivity).
  split; [exact Q|]. split; [exact T|]. split; [exact D|].
  exact (listing_agrees_with_get_job reading_env "job-0"
           (after_task tools_report) (first_row (after_task tools_report))
           (json_dumps stored_document) stored_document Q T D).
Defined.

(** X25.  The JSON report shows what [get_job] shows: for a job whose
    result text is not empty and decodes, both carry the same decoded
    document and the same status, and the report changes nothing in the
    job table.  For a job whose result column is NULL the two part ways:
    [get_job] raises and the report is written with empty scan results. *)
Theorem json_report_reads_like_get_job
        (E : env) (isoformat : Z -> string) (jid : string) (w : world)
        (job : Job) :
  query_first jid (db w) = Some job ->
  db (snd (get_json_report E isoformat jid w)) = db w /\
  match result job with
  | None =>
      fst (get_job E jid w)
      = Raise (Exn "TypeError" "the JSON object must be str") /\
      exists report,
        fst (get_json_report E isoformat jid w) = Ok report /\
        py_get report "scan_results" JNull = Ok (JObj [])
  | Some text =>
      forall doc,
        text <> "" -> json_loads E text = Some doc ->
        exists resp report info,
          fst (get_job E jid w) = Ok resp /\
          fst (get_json_report E isoformat jid w) = Ok report /\
          py_get resp "result" JNull = Ok doc /\
          py_get report "scan_results" JNull = Ok doc /\
          py_get report "job_info" JNull = Ok info /\
          py_get info "status" JNull = py_get resp "status" JNull /\
          py_get info "summary" JNull = py_get resp "summary" JNull
  end.
Proof.
  intros Q. unfold get_json_report, get_job. rewrite Q.
  unfold bind, lift, utcnow, ret.
  destruct (result job) as [text|].
  - split.
    + destruct (String.eqb text ""); [reflexivity|].
      destruct (json_loads E text); reflexivity.
    + intros doc N L. apply String.eqb_neq in N. rewrite N, L.
      do 3 eexists. repeat split.
  - split; [reflexivity|]. split; [reflexivity|].
    eexists. split; reflexivity.
Qed.

Lemma json_report_reads_like_get_job_witness :
  query_first "job-0" (db (after_task tools_report))
  = Some (first_row (after_task tools_report)) /\
  db (snd (get_json_report reading_env string_of_Z "job-0"
                           (after_task tools_report)))
  = db (after_task tools_report).
Proof.
  assert (Q : query_first "job-0" (db (after_task tools_report))
              = Some (first_row (after_task tools_report)))
    by (vm_compute; reflexivity).
  split; [exact Q|].
  destruct (json_report_reads_like_get_job reading_env string_of_Z "job-0"
              (after_task tools_report) (first_row (after_task tools_report)) Q)
    as (D & _).
  exact D.
Defined.
